(** * MyPos-MCP: the statement builder and the operation dispatcher

    A shallow embedding of [src/mcp_server.js] and
    [src/db_runners/QueryRunner.js].

    Conventions of the embedding.
    - A JavaScript string is the byte string of its UTF-8 encoding, so the
      literals below are the literals of the source.
    - A count, an offset or an array index is a [nat] (array lengths and key
      counts; rendered in decimal like a JavaScript integer).
    - An object used as a record ([datos], [filtro], a result row) is the
      association list of its entries in key iteration order, the order
      [Object.keys] and [Object.values] both follow.
    - The database behind the pool is an oracle: it answers a statement
      knowing the statements it received before.  A handler is a computation
      that threads the list of statements sent to the pool and either returns
      or throws. *)

From Stdlib Require Import Strings.String Strings.Ascii Lists.List Arith.Arith
  Arith.PeanoNat Bool.Bool micromega.Lia Numbers.DecimalString
  Numbers.DecimalNat Init.Decimal NArith.NArith Numbers.DecimalPos
  Numbers.DecimalN.
Import ListNotations.

Open Scope list_scope.
Open Scope string_scope.

(** ** Strings *)

(** The double quote character, used by the PostgreSQL identifier quoting. *)
Definition dquote : string := String "034"%char EmptyString.

(** Template literal [`${n}`] of a non-negative integer. *)
Definition decimal (n : nat) : string :=
  NilEmpty.string_of_uint (Nat.to_uint n).

(** [Array.prototype.join] on an array of strings. *)
Definition join (sep : string) (l : list string) : string :=
  String.concat sep l.

(** ** mcp_server.js: dialect helpers *)

Definition is_mysql (db_type : string) : bool := (db_type =? "mysql")%string.

(** [quoteIdent(ident)], with the module constant [db_type] made explicit. *)
Definition quoteIdent (db_type : string) (ident : string) : string :=
  if is_mysql db_type then "`" ++ ident ++ "`"
  else dquote ++ ident ++ dquote.

(** [makePlaceholders(db_type, count, offset = 0)], with [count] and [offset]
    as counters without a bound: what the tools pass, the number of keys of
    an object and an index below it.  [Js.makePlaceholders] below is the
    function on the numbers of JavaScript, with the rounding of large sums
    and the limit on array lengths. *)
Definition makePlaceholders (db_type : string) (count offset : nat)
  : list string :=
  if is_mysql db_type then repeat "?" count
  else map (fun i => "$" ++ decimal (i + 1 + offset)) (seq 0 count).

(** ** Values, records and results *)

(** A scalar as it arrives in [z.any()] or comes back in a result row.  The
    tools never look inside a value: they bind it, or print it in a reply;
    numbers are kept to the non-negative integers. *)
Inductive Value : Type :=
| VUndefined
| VNull
| VBool (b : bool)
| VNum (n : nat)
| VStr (s : string).

(** An object as the list of its entries, in key iteration order. *)
Definition JsObject : Type := list (string * Value).

Definition keys (o : JsObject) : list string := map fst o.
Definition values (o : JsObject) : list Value := map snd o.

(** Property read [o[k]] under a key that [Object.prototype] does not
    define: [undefined] when the key is absent.  (Under an inherited name
    such as [constructor] an object without that key gives the inherited
    member, a function, which [Value] does not have.) *)
Fixpoint get (o : JsObject) (k : string) : Value :=
  match o with
  | [] => VUndefined
  | (k', v) :: rest => if (k' =? k)%string then v else get rest k
  end.

(** [String(v)], also what a template literal does to [v]. *)
Definition String_of (v : Value) : string :=
  match v with
  | VUndefined => "undefined"
  | VNull => "null"
  | VBool true => "true"
  | VBool false => "false"
  | VNum n => decimal n
  | VStr s => s
  end.

(** A thrown [Error]. *)
Record JsError : Type := { name : string; message : string }.

(** [(e.message || e)] once concatenated to a string: the message, or
    [Error.prototype.toString] of an error whose message is empty. *)
Definition describe (e : JsError) : string :=
  if (message e =? "")%string then name e else message e.

Definition TypeError (msg : string) : JsError :=
  {| name := "TypeError"; message := msg |}.

(** What a driver hands back as [rows]: an array of row objects, the header
    object of a statement that is not a query (mysql2: it carries
    [affectedRows]), or nothing. *)
Inductive Rows : Type :=
| RArray (l : list JsObject)
| RHeader (affectedRows : nat)
| RMissing.

(** The driver's answer, [[rows, fields]] of mysql2 and [{rows, fields}] of
    pg alike; a field is kept by its name. *)
Record DriverResult : Type :=
  { rows : Rows; fields : option (list string) }.

(** What reaches the pool: [pool.execute(sql)] / [pool.query(sql)] carry no
    parameters, [pool.execute(sql, params)] / [pool.query(sql, params)] do. *)
Record Statement : Type :=
  { sql : string; params : option (list Value) }.

(** The result of [runQuery] and [runQueryWithParams]. *)
Record QueryResult : Type :=
  { columns : list string; result_rows : Rows }.

(** The envelope a tool returns: [{ isError, content: [{type:'text', text}] }]. *)
Record Envelope : Type := { isError : bool; text : string }.

Definition ok_text (t : string) : Envelope := {| isError := false; text := t |}.
Definition error_text (t : string) : Envelope := {| isError := true; text := t |}.

(** ** Computations against the pool *)

Inductive Outcome (A : Type) : Type :=
| Returned (a : A)
| Thrown (e : JsError).
Arguments Returned {A} a.
Arguments Thrown {A} e.

(** The pool and the database behind it: the answer to a statement, given
    the statements received so far. *)
Definition Driver : Type := list Statement -> Statement -> Outcome DriverResult.

(** A computation reads and extends the list of statements sent so far. *)
Definition M (A : Type) : Type := list Statement -> Outcome A * list Statement.

Definition ret {A} (a : A) : M A := fun log => (Returned a, log).

Definition throw {A} (e : JsError) : M A := fun log => (Thrown e, log).

Definition bind {A B} (m : M A) (k : A -> M B) : M B :=
  fun log =>
    match m log with
    | (Returned a, log') => k a log'
    | (Thrown e, log') => (Thrown e, log')
    end.

(** [try { body } catch (e) { handler(e) }]. *)
Definition try_catch {A} (body : M A) (handler : JsError -> M A) : M A :=
  fun log =>
    match body log with
    | (Returned a, log') => (Returned a, log')
    | (Thrown e, log') => handler e log'
    end.

(** One statement sent to the pool and awaited. *)
Definition send (pool : Driver) (st : Statement) : M DriverResult :=
  fun log => (pool log st, (log ++ [st])%list).

Declare Scope js_scope.
Delimit Scope js_scope with js.
Notation "x <- m ;; k" := (bind m (fun x => k))
  (at level 100, m at next level, right associativity) : js_scope.
Open Scope js_scope.

(** ** db_runners/QueryRunner.js *)

(** The fields of a constructed [QueryRunner] that its methods read.  The
    constructor throws for any [db_type] other than mysql, pg and postgresql;
    every method treats what is not mysql as PostgreSQL. *)
Record QueryRunner : Type := { db_type : string; pool : Driver }.

Definition nl : string := String "010"%char EmptyString.

(** [fields ? fields.map(f => ({ name: f.name })) : []]. *)
Definition columns_of (f : option (list string)) : list string :=
  match f with Some l => l | None => [] end.

(** [runQuery(sql)]. *)
Definition runQuery (this : QueryRunner) (q : string) : M QueryResult :=
  res <- send (pool this) {| sql := q; params := None |} ;;
  if is_mysql (db_type this) then
    ret {| columns := columns_of (fields res);
           result_rows := match rows res with
                          | RArray l => RArray l
                          | _ => RArray []
                          end |}
  else
    ret {| columns := columns_of (fields res);
           result_rows := match rows res with
                          | RMissing => RArray []
                          | r => r
                          end |}.

(** [runQueryWithParams(sql, params)]. *)
Definition runQueryWithParams (this : QueryRunner) (q : string)
  (ps : list Value) : M QueryResult :=
  res <- send (pool this) {| sql := q; params := Some ps |} ;;
  ret {| columns := columns_of (fields res); result_rows := rows res |}.

(** [rows.map(f)]: a [TypeError] when [rows] is not an array. *)
Definition rows_map {A} (f : JsObject -> A) (r : Rows) : M (list A) :=
  match r with
  | RArray l => ret (map f l)
  | RHeader _ => throw (TypeError "cols.map is not a function")
  | RMissing =>
      throw (TypeError "Cannot read properties of undefined (reading 'map')")
  end.

(** The catalog query of the PostgreSQL branch of [getTableColumns]. *)
Definition pg_columns_query : string :=
  nl ++ "          SELECT column_name FROM information_schema.columns"
     ++ nl ++ "          WHERE table_name = $1"
     ++ nl ++ "        ".

(** The statement [getTableColumns(table)] sends. *)
Definition columns_probe (this : QueryRunner) (table : string) : Statement :=
  if is_mysql (db_type this) then
    {| sql := "SHOW COLUMNS FROM `" ++ table ++ "`"; params := None |}
  else
    {| sql := pg_columns_query; params := Some [VStr table] |}.

(** [getTableColumns(table)]. *)
Definition getTableColumns (this : QueryRunner) (table : string)
  : M (list Value) :=
  try_catch
    (if is_mysql (db_type this) then
       res <- send (pool this)
                {| sql := "SHOW COLUMNS FROM `" ++ table ++ "`";
                   params := None |} ;;
       rows_map (fun c => get c "Field") (rows res)
     else
       res <- send (pool this)
                {| sql := pg_columns_query; params := Some [VStr table] |} ;;
       rows_map (fun c => get c "column_name") (rows res))
    (fun _ => ret []).

(** ** String.prototype.trim and the regular expression [/^select/i] *)

Definition utf8 (bytes : list nat) : string :=
  fold_right (fun b s => String (ascii_of_nat b) s) EmptyString bytes.

(** WhiteSpace and LineTerminator of ECMAScript, the characters [trim]
    removes and [\s] matches, each by its UTF-8 encoding: U+0009 to U+000D,
    U+0020, U+00A0, U+1680, U+2000 to U+200A, U+2028, U+2029, U+202F, U+205F,
    U+3000, U+FEFF. *)
Definition white_space : list string :=
  map utf8
    [ [9]; [10]; [11]; [12]; [13]; [32]; [194; 160]; [225; 154; 128];
      [226; 128; 128]; [226; 128; 129]; [226; 128; 130]; [226; 128; 131];
      [226; 128; 132]; [226; 128; 133]; [226; 128; 134]; [226; 128; 135];
      [226; 128; 136]; [226; 128; 137]; [226; 128; 138];
      [226; 128; 168]; [226; 128; 169]; [226; 128; 175]; [226; 129; 159];
      [227; 128; 128]; [239; 187; 191] ].

(** [Some rest] when [s] is [p] followed by [rest]. *)
Fixpoint strip_prefix (p s : string) : option string :=
  match p with
  | EmptyString => Some s
  | String a p' =>
      match s with
      | EmptyString => None
      | String b s' => if (a =? b)%char then strip_prefix p' s' else None
      end
  end.

(** The rest of [s] after one leading white space character, if any. *)
Fixpoint strip_one (table : list string) (s : string) : option string :=
  match table with
  | [] => None
  | w :: table' =>
      match strip_prefix w s with
      | Some rest => Some rest
      | None => strip_one table' s
      end
  end.

Fixpoint trimStart_fuel (fuel : nat) (s : string) : string :=
  match fuel with
  | 0 => s
  | S fuel' =>
      match strip_one white_space s with
      | Some rest => trimStart_fuel fuel' rest
      | None => s
      end
  end.

Definition trimStart (s : string) : string :=
  trimStart_fuel (String.length s) s.

(** Nothing but white space. *)
Definition blank (s : string) : bool := (trimStart s =? "")%string.

Fixpoint trimEnd (s : string) : string :=
  match s with
  | EmptyString => EmptyString
  | String c s' => if blank s then EmptyString else String c (trimEnd s')
  end.

(** [s.trim()]. *)
Definition trim (s : string) : string := trimEnd (trimStart s).

(** Canonicalize of a case-insensitive pattern without the [u] flag: an
    ASCII letter folds to its capital, and a character beyond ASCII never
    folds onto an ASCII one. *)
Definition canonicalize (c : ascii) : ascii :=
  let n := nat_of_ascii c in
  if ((97 <=? n)%nat && (n <=? 122)%nat)%bool then ascii_of_nat (n - 32) else c.

(** A literal pattern anchored at the start, under the [i] flag. *)
Fixpoint test_prefix_i (pattern s : string) : bool :=
  match pattern with
  | EmptyString => true
  | String p pattern' =>
      match s with
      | EmptyString => false
      | String c s' =>
          (canonicalize p =? canonicalize c)%char && test_prefix_i pattern' s'
      end
  end.

(** [s.length] of a JavaScript string, in UTF-16 code units, read off the
    UTF-8 bytes: a continuation byte counts for nothing, the lead byte of a
    four-byte sequence for a surrogate pair. *)
Fixpoint utf16_length (s : string) : nat :=
  match s with
  | EmptyString => 0
  | String c s' =>
      let n := nat_of_ascii c in
      (if (n <? 128)%nat then 1
       else if (n <? 192)%nat then 0
       else if (n <? 240)%nat then 1
       else 2) + utf16_length s'
  end.

(** [s.repeat(n)]. *)
Fixpoint repeat_string (s : string) (n : nat) : string :=
  match n with
  | 0 => EmptyString
  | S n' => s ++ repeat_string s n'
  end.

(** [l.map((x, i) => f(x, i))], counting from [i]. *)
Fixpoint map_index {A B} (f : A -> nat -> B) (i : nat) (l : list A) : list B :=
  match l with
  | [] => []
  | x :: l' => f x i :: map_index f (S i) l'
  end.

(** [Object.keys(o)] and [Object.values(o)] of an optional argument: a
    [TypeError] on [undefined]. *)
Definition Object_keys (o : option JsObject) : M (list string) :=
  match o with
  | Some e => ret (keys e)
  | None => throw (TypeError "Cannot convert undefined or null to object")
  end.

Definition Object_values (o : option JsObject) : M (list Value) :=
  match o with
  | Some e => ret (values e)
  | None => throw (TypeError "Cannot convert undefined or null to object")
  end.

(** ** mcp_server.js: the tools *)

Inductive Accion : Type := create | read | update | delete.

Inductive Formato : Type := csv | json.

(** An element of [columnas] of [crearTabla]. *)
Record ColumnaDef : Type := { nombre : string; tipo : string }.

(** [result.rows?.affectedRows ?? 'verifica la tabla.'] inside a template
    literal. *)
Definition affectedRows_text (r : Rows) : string :=
  match r with
  | RHeader n => decimal n
  | _ => "verifica la tabla."
  end.

(** The confirmation phrases the tool descriptions ask the user to write,
    with the bracketed names replaced by the operation's targets. *)
Definition frase_eliminarTabla (nombreTabla : string) : string :=
  "Confirmar eliminación de la tabla " ++ nombreTabla.

Definition frase_eliminarColumna (tabla columna : string) : string :=
  "Confirmar eliminación de la columna " ++ columna ++ " de la tabla " ++ tabla.

Definition frase_eliminarRestriccionUnica (tabla nombre : string) : string :=
  "Confirmar eliminación de la restricción " ++ nombre
    ++ " de la tabla " ++ tabla.

Definition frase_eliminarClaveForanea (tabla nombre : string) : string :=
  "Confirmar eliminación de la clave foránea " ++ nombre
    ++ " de la tabla " ++ tabla.

Definition frase_crudTabla_delete (tabla : string) : string :=
  "Confirmar eliminación de los registros filtrados en la tabla " ++ tabla.

Section Tools.

(** [JSON.stringify(rows, null, 2)], a function of the host. *)
Variable JSON_stringify : Rows -> string.

(** Lines 200 to 216 of [importarTabla]: [JSON.parse(datos)], or the
    splitting of CSV text into records under its header line or under
    [columnas]; it yields the records in order, or throws.  Text parsing is
    a collaborator of the statement construction and is left abstract. *)
Variable parse_registros :
  string -> Formato -> option (list string) -> Outcome (list JsObject).

(** The module constants [query_runner] and [db_type]. *)
Variable query_runner : QueryRunner.
Local Notation "'quote'" := (quoteIdent (db_type query_runner)).
Local Notation "'placeholders_for'" :=
  (makePlaceholders (db_type query_runner)).

(** [makePlaceholders(db_type, 1, i)[0]] inside a template literal. *)
Definition placeholder_at (i : nat) : string :=
  nth 0 (placeholders_for 1 i) "undefined".

(** Tool [columnasDeTabla]. *)
Definition columnasDeTabla (tabla : string) : M Envelope :=
  try_catch
    (cols <- getTableColumns query_runner tabla ;;
     match cols with
     | [] => ret (ok_text ("La tabla '" ++ tabla ++ "' no tiene columnas."))
     | _ =>
         ret (ok_text ("Columnas de la tabla '" ++ tabla ++ "':" ++ nl
                         ++ join nl (map (fun col => "- " ++ String_of col) cols)))
     end)
    (fun e => ret (error_text ("Error al listar columnas: " ++ describe e))).

(** Tool [consultarSQL]. *)
Definition consultarSQL (consulta : string) : M Envelope :=
  try_catch
    (if negb (test_prefix_i "select" (trim consulta)) then
       ret (error_text "Solo se permiten consultas SELECT.")
     else
       result <- runQuery query_runner consulta ;;
       match result_rows result with
       | RMissing =>
           throw (TypeError
                    "Cannot read properties of undefined (reading 'length')")
       | RHeader _ => ret (ok_text "Sin resultados.")
       | RArray [] => ret (ok_text "Sin resultados.")
       | RArray filas =>
           let headers := join " | " (columns result) in
           let dataRows :=
             join nl
               (map (fun row =>
                       join " | "
                         (map (fun c => String_of (get row c)) (columns result)))
                  filas) in
           ret (ok_text (headers ++ nl
                           ++ repeat_string "-" (utf16_length headers) ++ nl
                           ++ dataRows))
       end)
    (fun e => ret (error_text ("Error al consultar: " ++ describe e))).

(** Tool [crearTabla]. *)
Definition crearTabla (nombreTabla : string) (columnas : list ColumnaDef)
  : M Envelope :=
  try_catch
    (if ((nombreTabla =? "")%string || (length columnas =? 0)%nat)%bool then
       ret (error_text
              "Debes proporcionar un nombre de tabla y al menos una columna.")
     else
       exists_already <-
         try_catch
           (colsExistentes <- getTableColumns query_runner nombreTabla ;;
            ret (negb (length colsExistentes =? 0)%nat))
           (fun _ => ret false) ;;
       if (exists_already : bool) then
         ret (ok_text ("La tabla '" ++ nombreTabla
                         ++ "' ya existe. No es necesario crearla."))
       else
         let columnasSQL :=
           join ("," ++ nl)
             (map (fun col => quote (nombre col) ++ " " ++ tipo col) columnas) in
         let q := "CREATE TABLE " ++ quote nombreTabla ++ " (" ++ nl
                    ++ columnasSQL ++ nl ++ ")" in
         _ <- runQuery query_runner q ;;
         ret (ok_text "Tabla creada exitosamente."))
    (fun e => ret (error_text ("Error al crear la tabla: " ++ describe e))).

(** The [for (const registro of datos)] loop of [insertarDatos]; it returns
    [insertedCount]. *)
Fixpoint insertar_registros (tabla : string) (datos : list JsObject)
  (insertedCount : nat) : M nat :=
  match datos with
  | [] => ret insertedCount
  | registro :: resto =>
      let columnas := keys registro in
      let valores := values registro in
      let placeholders := join ", " (placeholders_for (length valores) 0) in
      let columnasStr := join ", " (map (fun col => quote col) columnas) in
      let q := "INSERT INTO " ++ quote tabla ++ " (" ++ columnasStr
                 ++ ") VALUES (" ++ placeholders ++ ")" in
      _ <- runQueryWithParams query_runner q valores ;;
      insertar_registros tabla resto (S insertedCount)
  end.

(** Tool [insertarDatos]. *)
Definition insertarDatos (tabla : string) (datos : list JsObject) : M Envelope :=
  try_catch
    (if (length datos =? 0)%nat then
       ret (error_text "Debes proporcionar un array de datos para insertar.")
     else
       insertedCount <- insertar_registros tabla datos 0 ;;
       ret (ok_text ("Se insertaron " ++ decimal insertedCount
                       ++ " registro(s) en la tabla '" ++ tabla
                       ++ "' exitosamente.")))
    (fun e => ret (error_text ("Error al insertar datos: " ++ describe e))).

(** [columnas && columnas.length > 0 ? columnas : Object.keys(registro)]. *)
Definition columnas_o_claves (columnas : option (list string))
  (registro : JsObject) : list string :=
  match columnas with
  | Some (c :: cs) => c :: cs
  | _ => keys registro
  end.

(** The [for (const registro of registros)] loop of [importarTabla]. *)
Fixpoint importar_registros (tabla : string) (columnas : option (list string))
  (registros : list JsObject) (insertedCount : nat) : M nat :=
  match registros with
  | [] => ret insertedCount
  | registro :: resto =>
      let cols := columnas_o_claves columnas registro in
      let valores := map (fun c => get registro c) cols in
      let placeholders := join ", " (placeholders_for (length valores) 0) in
      let columnasStr := join ", " (map (fun col => quote col) cols) in
      let q := "INSERT INTO " ++ quote tabla ++ " (" ++ columnasStr
                 ++ ") VALUES (" ++ placeholders ++ ")" in
      _ <- runQueryWithParams query_runner q valores ;;
      importar_registros tabla columnas resto (S insertedCount)
  end.

(** Tool [importarTabla]. *)
Definition importarTabla (tabla datos : string) (formato : Formato)
  (columnas : option (list string)) : M Envelope :=
  try_catch
    (registros <- (fun log => (parse_registros datos formato columnas, log)) ;;
     insertedCount <- importar_registros tabla columnas registros 0 ;;
     ret (ok_text ("Se importaron " ++ decimal insertedCount
                     ++ " registro(s) en la tabla '" ++ tabla
                     ++ "' exitosamente.")))
    (fun e => ret (error_text ("Error al importar datos: " ++ describe e))).

(** [Object.keys(o).map((col, i) => `${quoteIdent(col)} = ${makePlaceholders(db_type, 1, offset + i)[0]}`)]. *)
Definition condiciones (offset : nat) (cols : list string) : list string :=
  map_index (fun col i => quote col ++ " = " ++ placeholder_at (offset + i))
    0 cols.

(** Tool [crudTabla]. *)
Definition crudTabla (tabla : string) (accion : Accion)
  (datos filtro : option JsObject) : M Envelope :=
  try_catch
    (if (tabla =? "")%string then
       ret (error_text "Debes especificar la tabla y la acción.")
     else if match accion, datos with
             | create, None | update, None => true
             | _, _ => false
             end then
       ret (error_text "Debes proporcionar datos para crear o actualizar.")
     else
       let filtro :=
         match accion, filtro with
         | create, _ => filtro
         | _, None => Some []
         | _, Some f => Some f
         end in
       match accion with
       | create =>
           columnas <- Object_keys datos ;;
           vals <- Object_values datos ;;
           let placeholders := join ", " (placeholders_for (length vals) 0) in
           let columnasStr := join ", " (map (fun col => quote col) columnas) in
           let q := "INSERT INTO " ++ quote tabla ++ " (" ++ columnasStr
                      ++ ") VALUES (" ++ placeholders ++ ")" in
           _ <- runQueryWithParams query_runner q vals ;;
           ret (ok_text "Registro creado exitosamente.")
       | read =>
           let '(where_clause, valores) :=
             match filtro with
             | Some (c :: f) =>
                 ("WHERE " ++ join " AND " (condiciones 0 (keys (c :: f))),
                  values (c :: f))
             | _ => ("", [])
             end in
           let q := "SELECT * FROM " ++ quote tabla ++ " " ++ where_clause in
           result <- runQueryWithParams query_runner q valores ;;
           ret (ok_text (JSON_stringify (result_rows result)))
       | update =>
           match filtro with
           | Some (c :: f) =>
               cols <- Object_keys datos ;;
               let setCols := join ", " (condiciones 0 cols) in
               setVals <- Object_values datos ;;
               let whereCols :=
                 join " AND " (condiciones (length setVals) (keys (c :: f))) in
               let whereVals := values (c :: f) in
               let q := "UPDATE " ++ quote tabla ++ " SET " ++ setCols
                          ++ " WHERE " ++ whereCols in
               let valores := (setVals ++ whereVals)%list in
               result <- runQueryWithParams query_runner q valores ;;
               ret (ok_text ("Registros actualizados: "
                               ++ affectedRows_text (result_rows result)))
           | _ => ret (error_text "Debes proporcionar un filtro para actualizar.")
           end
       | delete =>
           match filtro with
           | Some (c :: f) =>
               let whereCols := join " AND " (condiciones 0 (keys (c :: f))) in
               let whereVals := values (c :: f) in
               let q := "DELETE FROM " ++ quote tabla ++ " WHERE " ++ whereCols in
               result <- runQueryWithParams query_runner q whereVals ;;
               ret (ok_text ("Registros eliminados: "
                               ++ affectedRows_text (result_rows result)))
           | _ => ret (error_text "Debes proporcionar un filtro para borrar.")
           end
       end)
    (fun e => ret (error_text ("Error en CRUD: " ++ describe e))).

(** Tool [eliminarTabla]. *)
Definition eliminarTabla (nombreTabla : string) : M Envelope :=
  try_catch
    (if (nombreTabla =? "")%string then
       ret (error_text "Debes proporcionar el nombre de la tabla.")
     else
       _ <- runQuery query_runner ("DROP TABLE IF EXISTS " ++ quote nombreTabla) ;;
       ret (ok_text ("Tabla '" ++ nombreTabla ++ "' eliminada exitosamente.")))
    (fun e => ret (error_text ("Error al eliminar la tabla: " ++ describe e))).

(** Tool [eliminarColumna]. *)
Definition eliminarColumna (tabla columna : string) : M Envelope :=
  try_catch
    (if ((tabla =? "")%string || (columna =? "")%string)%bool then
       ret (error_text "Debes proporcionar la tabla y la columna.")
     else
       _ <- runQuery query_runner
              ("ALTER TABLE " ++ quote tabla ++ " DROP COLUMN " ++ quote columna) ;;
       ret (ok_text ("Columna '" ++ columna ++ "' eliminada de la tabla '"
                       ++ tabla ++ "' exitosamente.")))
    (fun e => ret (error_text ("Error al eliminar la columna: " ++ describe e))).

(** Tool [eliminarRestriccionUnica]. *)
Definition eliminarRestriccionUnica (tabla nombre : string) : M Envelope :=
  try_catch
    (if ((tabla =? "")%string || (nombre =? "")%string)%bool then
       ret (error_text
              "Debes proporcionar la tabla y el nombre de la restricción.")
     else
       let q :=
         if is_mysql (db_type query_runner) then
           "ALTER TABLE " ++ quote tabla ++ " DROP INDEX " ++ quote nombre
         else
           "ALTER TABLE " ++ quote tabla ++ " DROP CONSTRAINT " ++ quote nombre in
       _ <- runQuery query_runner q ;;
       ret (ok_text "Restricción UNIQUE eliminada exitosamente."))
    (fun e =>
       ret (error_text ("Error al eliminar restricción UNIQUE: " ++ describe e))).

(** Tool [eliminarClaveForanea]. *)
Definition eliminarClaveForanea (tabla nombre : string) : M Envelope :=
  try_catch
    (if ((tabla =? "")%string || (nombre =? "")%string)%bool then
       ret (error_text
              "Debes proporcionar la tabla y el nombre de la clave foránea.")
     else
       let q :=
         if is_mysql (db_type query_runner) then
           "ALTER TABLE " ++ quote tabla ++ " DROP FOREIGN KEY " ++ quote nombre
         else
           "ALTER TABLE " ++ quote tabla ++ " DROP CONSTRAINT " ++ quote nombre in
       _ <- runQuery query_runner q ;;
       ret (ok_text "Clave foránea eliminada exitosamente."))
    (fun e =>
       ret (error_text ("Error al eliminar clave foránea: " ++ describe e))).

End Tools.

(** ** Properties stated over the tools *)

(** The statements of a run that reached the pool, and its envelope. *)
Definition sent {A} (run : Outcome A * list Statement) : list Statement :=
  snd run.

Definition reply {A} (run : Outcome A * list Statement) : Outcome A :=
  fst run.

(** The pool answers every statement of [sts], sent in this order after
    [log], without an error. *)
Fixpoint accepts (p : Driver) (log : list Statement) (sts : list Statement)
  : bool :=
  match sts with
  | [] => true
  | st :: sts' =>
      match p log st with
      | Returned _ => accepts p (log ++ [st])%list sts'
      | Thrown _ => false
      end
  end.

(** The regular expression [^\s*select] under the [i] flag, as a language:
    a run of white space characters, then the six letters in either case. *)
Inductive white_space_run : string -> Prop :=
| run_empty : white_space_run ""
| run_more w s :
    In w white_space -> white_space_run s -> white_space_run (w ++ s).

Definition matches_select (s : string) : Prop :=
  exists w rest,
    s = w ++ rest /\ white_space_run w /\ test_prefix_i "select" rest = true.

(** A capital ASCII letter, and a pattern made of letters only. *)
Definition capital (c : ascii) : bool :=
  ((65 <=? nat_of_ascii c)%nat && (nat_of_ascii c <=? 90)%nat)%bool.

Fixpoint letters (p : string) : bool :=
  match p with
  | EmptyString => true
  | String a p' => (capital (canonicalize a) && letters p')%bool
  end.

(** A destructive operation gated by a confirmation phrase: unless one of
    the strings the caller supplied is the phrase, nothing is sent. *)
Definition confirmation_gated (supplied : list string) (frase : string)
  (before after : list Statement) : Prop :=
  ~ In frase supplied -> after = before.

(** The [INSERT] of one record over the columns [cols]. *)
Definition insert_statement (db : string) (tabla : string)
  (cols : list string) (vals : list Value) : Statement :=
  {| sql := "INSERT INTO " ++ quoteIdent db tabla ++ " ("
              ++ join ", " (map (quoteIdent db) cols) ++ ") VALUES ("
              ++ join ", " (makePlaceholders db (length vals) 0) ++ ")";
     params := Some vals |}.

(** Column assignments [col = token], column by column. *)
Definition assignments (db : string) (cols tokens : list string)
  : list string :=
  map (fun ct => quoteIdent db (fst ct) ++ " = " ++ snd ct) (combine cols tokens).

(** How each engine answers the column probe for a table that does not
    exist: MySQL refuses [SHOW COLUMNS] of an unknown table, and the
    [information_schema.columns] query of PostgreSQL returns no row. *)
Definition table_missing (this : QueryRunner) (answer : Outcome DriverResult)
  : Prop :=
  if is_mysql (db_type this) then exists e, answer = Thrown e
  else exists f, answer = Returned {| rows := RArray []; fields := f |}.

(** The statements the loops of [importarTabla] and [insertarDatos] send
    for a sequence of records, one per record. *)
Definition import_statements (db tabla : string)
  (columnas : option (list string)) (registros : list JsObject)
  : list Statement :=
  map (fun registro =>
         let cols := columnas_o_claves columnas registro in
         insert_statement db tabla cols (map (fun c => get registro c) cols))
    registros.

Definition insert_statements (db tabla : string) (datos : list JsObject)
  : list Statement :=
  map (fun registro =>
         insert_statement db tabla (keys registro) (values registro))
    datos.

(** The statements [sts] sent one after the other, counting from
    [insertedCount], up to the first one that is refused. *)
Fixpoint send_each (p : Driver) (sts : list Statement) (insertedCount : nat)
  : M nat :=
  match sts with
  | [] => ret insertedCount
  | st :: sts' => _ <- send p st ;; send_each p sts' (S insertedCount)
  end.

(** ** Sample databases *)

(** A database that accepts every statement and has no row to return. *)
Definition accepting : Driver :=
  fun _ _ => Returned {| rows := RArray []; fields := None |}.

(** A database without any table, as the column probe sees it: MySQL
    refuses [SHOW COLUMNS] of an unknown table. *)
Definition no_such_table : Driver :=
  fun _ _ =>
    Thrown {| name := "Error"; message := "Table 'db.t' doesn't exist" |}.

(** A database that refuses the statement sent after [n] earlier ones. *)
Definition failing_at (n : nat) : Driver :=
  fun log _ =>
    if (length log =? n)%nat then
      Thrown {| name := "Error"; message := "Duplicate entry" |}
    else Returned {| rows := RHeader 1; fields := None |}.

(** A database in which the probed table has the columns [id] and [name]. *)
Definition with_columns : Driver :=
  fun _ _ =>
    Returned {| rows := RArray [ [("Field", VStr "id")];
                                  [("Field", VStr "name")] ];
                fields := None |}.

(** A parser of bulk text that yields the given records. *)
Definition parsing_to (registros : list JsObject)
  : string -> Formato -> option (list string) -> Outcome (list JsObject) :=
  fun _ _ _ => Returned registros.

(** Two records with the same key, as a unique column would refuse them. *)
Definition two_records : list JsObject :=
  [ [("email", VStr "a@b.com")]; [("email", VStr "a@b.com")] ].

Definition mysql_on (p : Driver) : QueryRunner :=
  {| db_type := "mysql"; pool := p |}.

Definition pg_on (p : Driver) : QueryRunner :=
  {| db_type := "pg"; pool := p |}.

(** ** db_runners/QueryRunner.js: the constructor, the schema, the connection *)

(** [new QueryRunner(db_type, configuration)]; [created] is the pool that
    [mysql.createPool] or [new Pool] hands back for the configuration. *)
Definition new_QueryRunner (type : string) (created : Driver)
  : Outcome QueryRunner :=
  if (type =? "mysql")%string then
    Returned {| db_type := type; pool := created |}
  else if ((type =? "pg")%string || (type =? "postgresql")%string)%bool then
    Returned {| db_type := type; pool := created |}
  else
    Thrown {| name := "Error";
              message := "Tipo de base de datos no soportado: " ++ type |}.

(** An element of the result of [getSchema]: [{ name, columns }], a column
    being [{ name, type }]. *)
Record ColumnInfo : Type := { col_name : Value; col_type : Value }.

Record TableSchema : Type :=
  { tbl_name : Value; tbl_columns : list ColumnInfo }.

(** [what.map(f)] inside an async callback, [what] being the expression the
    source maps ([cols], [res2.rows]): the [TypeError] of a value that is no
    array rejects the promise. *)
Definition array_map {A} (what : string) (f : JsObject -> A) (r : Rows)
  : Outcome (list A) :=
  match r with
  | RArray l => Returned (map f l)
  | RHeader _ => Thrown (TypeError (what ++ ".map is not a function"))
  | RMissing =>
      Thrown (TypeError "Cannot read properties of undefined (reading 'map')")
  end.

(** [l.map(async x => { const r = await pool.execute(stmt(x)); return k(x, r) })]:
    every callback runs up to its [await] while the array is mapped, so the
    statements reach the pool in the order of [l] before any answer is
    looked at; each promise settles with what its callback makes of the
    answer. *)
Fixpoint map_async {A B} (p : Driver) (stmt : A -> Statement)
  (k : A -> DriverResult -> Outcome B) (l : list A) (log : list Statement)
  : list (Outcome B) * list Statement :=
  match l with
  | [] => ([], log)
  | x :: l' =>
      let settled :=
        match p log (stmt x) with
        | Returned r => k x r
        | Thrown e => Thrown e
        end in
      let (outs, log') := map_async p stmt k l' (log ++ [stmt x])%list in
      (settled :: outs, log')
  end.

Fixpoint rejections {A} (outs : list (Outcome A)) : list JsError :=
  match outs with
  | [] => []
  | Returned _ :: outs' => rejections outs'
  | Thrown e :: outs' => e :: rejections outs'
  end.

Fixpoint fulfilled {A} (outs : list (Outcome A)) : list A :=
  match outs with
  | [] => []
  | Returned a :: outs' => a :: fulfilled outs'
  | Thrown _ :: outs' => fulfilled outs'
  end.

(** [await Promise.all(promises)]: the values in order when every promise is
    fulfilled, otherwise the reason of the promise that rejected first in
    time; [settles_first] names it among the rejections. *)
Definition Promise_all {A} (settles_first : list JsError -> nat)
  (outs : list (Outcome A)) : Outcome (list A) :=
  match rejections outs with
  | [] => Returned (fulfilled outs)
  | e :: es => Thrown (nth (settles_first (e :: es)) (e :: es) e)
  end.

(** The catalog queries of the PostgreSQL branch of [getSchema]. *)
Definition pg_tables_query : string :=
  nl ++ "        SELECT table_name"
     ++ nl ++ "        FROM information_schema.tables"
     ++ nl ++ "        WHERE table_schema = 'public' AND table_type='BASE TABLE'"
     ++ nl ++ "      ".

Definition pg_schema_columns_query : string :=
  nl ++ "          SELECT column_name, data_type"
     ++ nl ++ "          FROM information_schema.columns"
     ++ nl ++ "          WHERE table_name = $1"
     ++ nl ++ "        ".

(** The first statement of [getSchema], and the one it sends per table. *)
Definition tables_query (this : QueryRunner) : Statement :=
  if is_mysql (db_type this) then {| sql := "SHOW TABLES"; params := None |}
  else {| sql := pg_tables_query; params := None |}.

Definition mysql_columns_of (tableKey : string) (tbl : JsObject) : Statement :=
  {| sql := "SHOW COLUMNS FROM `" ++ String_of (get tbl tableKey) ++ "`";
     params := None |}.

Definition pg_columns_of (row : JsObject) : Statement :=
  {| sql := pg_schema_columns_query; params := Some [get row "table_name"] |}.

(** [getSchema()]. *)
Definition getSchema (settles_first : list JsError -> nat)
  (this : QueryRunner) : M (list TableSchema) :=
  if is_mysql (db_type this) then
    res <- send (pool this) {| sql := "SHOW TABLES"; params := None |} ;;
    match rows res with
    | RArray (first :: rest) =>
        let tables := first :: rest in
        let tableKey := nth 0 (keys first) "undefined" in
        fun log =>
          let (outs, log') :=
            map_async (pool this) (mysql_columns_of tableKey)
              (fun tbl r =>
                 match array_map "cols"
                         (fun c => {| col_name := get c "Field";
                                      col_type := get c "Type" |})
                         (rows r) with
                 | Returned cols =>
                     Returned {| tbl_name := get tbl tableKey;
                                 tbl_columns := cols |}
                 | Thrown e => Thrown e
                 end)
              tables log in
          (Promise_all settles_first outs, log')
    | RArray [] | RHeader _ =>
        throw (TypeError "Cannot convert undefined or null to object")
    | RMissing =>
        throw (TypeError "Cannot read properties of undefined (reading '0')")
    end
  else
    res <- send (pool this) {| sql := pg_tables_query; params := None |} ;;
    match rows res with
    | RArray tables =>
        fun log =>
          let (outs, log') :=
            map_async (pool this) pg_columns_of
              (fun row r =>
                 match array_map "res2.rows"
                         (fun c => {| col_name := get c "column_name";
                                      col_type := get c "data_type" |})
                         (rows r) with
                 | Returned cols =>
                     Returned {| tbl_name := get row "table_name";
                                 tbl_columns := cols |}
                 | Thrown e => Thrown e
                 end)
              tables log in
          (Promise_all settles_first outs, log')
    | RHeader _ => throw (TypeError "res.rows.map is not a function")
    | RMissing =>
        throw (TypeError "Cannot read properties of undefined (reading 'map')")
    end.

(** The calls [testConnection] and [closePool] make on the pool and on the
    connection it lends, and how the pool takes them: [None] when a call
    succeeds, the error when it throws or rejects. *)
Inductive PoolCall : Type :=
| getConnection
| ping
| connect
| client_query (q : string)
| release
| pool_end.

Definition Connections : Type := list PoolCall -> PoolCall -> option JsError.

Definition call (net : Connections) (c : PoolCall) (calls : list PoolCall)
  : Outcome unit * list PoolCall :=
  (match net calls c with None => Returned tt | Some e => Thrown e end,
   (calls ++ [c])%list).

(** One call after the other, as long as none throws. *)
Fixpoint call_each (net : Connections) (cs : list PoolCall)
  (calls : list PoolCall) : Outcome unit * list PoolCall :=
  match cs with
  | [] => (Returned tt, calls)
  | c :: cs' =>
      match call net c calls with
      | (Returned _, calls') => call_each net cs' calls'
      | (Thrown e, calls') => (Thrown e, calls')
      end
  end.

(** [testConnection()]. *)
Definition testConnection (type : string) (net : Connections)
  (calls : list PoolCall) : Outcome unit * list PoolCall :=
  if is_mysql type then call_each net [getConnection; ping; release] calls
  else call_each net [connect; client_query "SELECT 1"; release] calls.

(** [closePool()]; a constructed runner always holds a pool. *)
Definition closePool (net : Connections) (calls : list PoolCall)
  : Outcome unit * list PoolCall :=
  call net pool_end calls.

(** ** mcp_server.js: the remaining tools *)

Fixpoint all_chars (f : ascii -> bool) (s : string) : bool :=
  match s with
  | EmptyString => true
  | String c s' => (f c && all_chars f s')%bool
  end.

(** The class [[a-zA-Z0-9_]]. *)
Definition word_char (c : ascii) : bool :=
  let n := nat_of_ascii c in
  (((97 <=? n)%nat && (n <=? 122)%nat)
   || ((65 <=? n)%nat && (n <=? 90)%nat)
   || ((48 <=? n)%nat && (n <=? 57)%nat)
   || (n =? 95)%nat)%bool.

(** [/^[a-zA-Z0-9_]+$/.test(s)]. *)
Definition test_word (s : string) : bool :=
  match s with
  | EmptyString => false
  | _ => all_chars word_char s
  end.

(** An optional string used as a condition: [undefined] and [''] are falsy. *)
Definition given (o : option string) : option string :=
  match o with
  | Some EmptyString => None
  | other => other
  end.

Section OtherTools.

Variable JSON_stringify : Rows -> string.

(** [parse] of json2csv, a function of the host: the CSV text of the rows,
    or an error. *)
Variable json2csv : Rows -> Outcome string.

(** Which rejection [Promise.all] meets first. *)
Variable settles_first : list JsError -> nat.

Variable query_runner : QueryRunner.
Local Notation "'quote'" := (quoteIdent (db_type query_runner)).

(** Tool [listarTablas]; its body has no [try]. *)
Definition listarTablas : M Envelope :=
  schema <- getSchema settles_first query_runner ;;
  ret (ok_text ("Tablas:" ++ nl
                  ++ join nl (map (fun t => "- " ++ String_of (tbl_name t))
                                schema))).

(** Tool [exportarTabla]. *)
Definition exportarTabla (tabla : string) (formato : Formato)
  (columnas : option (list string)) : M Envelope :=
  try_catch
    (let q := "SELECT " in
     let q :=
       match columnas with
       | Some (c :: cs) => q ++ join ", " (map (fun col => quote col) (c :: cs))
       | _ => q ++ "*"
       end in
     let q := q ++ " FROM " ++ quote tabla in
     result <- runQuery query_runner q ;;
     match formato with
     | json => ret (ok_text (JSON_stringify (result_rows result)))
     | csv =>
         text_csv <- (fun log => (json2csv (result_rows result), log)) ;;
         ret (ok_text text_csv)
     end)
    (fun e => ret (error_text ("Error al exportar tabla: " ++ describe e))).

(** Tool [agregarColumna]. *)
Definition agregarColumna (tabla columna tipo : string) : M Envelope :=
  try_catch
    (if (negb (test_word tabla) || negb (test_word columna))%bool then
       ret (error_text
              "Nombre de tabla o columna no válido. Use solo letras, números y guiones bajos.")
     else
       let query := "ALTER TABLE " ++ quote tabla ++ " ADD COLUMN "
                      ++ quote columna ++ " " ++ tipo in
       _ <- runQuery query_runner query ;;
       ret (ok_text ("Columna '" ++ columna ++ "' agregada a la tabla '"
                       ++ tabla ++ "' exitosamente.")))
    (fun e => ret (error_text ("Error al agregar la columna: " ++ describe e))).

(** Tool [renombrarTabla]. *)
Definition renombrarTabla (nombreActual nuevoNombre : string) : M Envelope :=
  try_catch
    (if ((nombreActual =? "")%string || (nuevoNombre =? "")%string)%bool then
       ret (error_text "Debes proporcionar el nombre actual y el nuevo nombre.")
     else
       let q :=
         if is_mysql (db_type query_runner) then
           "ALTER TABLE " ++ quote nombreActual ++ " RENAME TO " ++ quote nuevoNombre
         else
           "ALTER TABLE " ++ quote nombreActual ++ " RENAME TO " ++ quote nuevoNombre in
       _ <- runQuery query_runner q ;;
       ret (ok_text ("Tabla renombrada de '" ++ nombreActual ++ "' a '"
                       ++ nuevoNombre ++ "' exitosamente.")))
    (fun e => ret (error_text ("Error al renombrar la tabla: " ++ describe e))).

(** Tool [renombrarColumna]. *)
Definition renombrarColumna (tabla columnaActual nuevoNombre tipo : string)
  : M Envelope :=
  try_catch
    (if ((tabla =? "")%string || (columnaActual =? "")%string
         || (nuevoNombre =? "")%string || (tipo =? "")%string)%bool then
       ret (error_text
              "Debes proporcionar la tabla, columna actual, nuevo nombre y tipo.")
     else
       let q :=
         if is_mysql (db_type query_runner) then
           "ALTER TABLE " ++ quote tabla ++ " CHANGE " ++ quote columnaActual
             ++ " " ++ quote nuevoNombre ++ " " ++ tipo
         else
           "ALTER TABLE " ++ quote tabla ++ " RENAME COLUMN "
             ++ quote columnaActual ++ " TO " ++ quote nuevoNombre in
       _ <- runQuery query_runner q ;;
       ret (ok_text ("Columna renombrada de '" ++ columnaActual ++ "' a '"
                       ++ nuevoNombre ++ "' exitosamente.")))
    (fun e => ret (error_text ("Error al renombrar la columna: " ++ describe e))).

(** Tool [cambiarTipoColumna]. *)
Definition cambiarTipoColumna (tabla columna nuevoTipo : string) : M Envelope :=
  try_catch
    (if ((tabla =? "")%string || (columna =? "")%string
         || (nuevoTipo =? "")%string)%bool then
       ret (error_text "Debes proporcionar la tabla, columna y el nuevo tipo.")
     else
       let q :=
         if is_mysql (db_type query_runner) then
           "ALTER TABLE " ++ quote tabla ++ " MODIFY COLUMN " ++ quote columna
             ++ " " ++ nuevoTipo
         else
           "ALTER TABLE " ++ quote tabla ++ " ALTER COLUMN " ++ quote columna
             ++ " TYPE " ++ nuevoTipo in
       _ <- runQuery query_runner q ;;
       ret (ok_text ("Tipo de columna '" ++ columna ++ "' cambiado a '"
                       ++ nuevoTipo ++ "' exitosamente.")))
    (fun e =>
       ret (error_text ("Error al cambiar tipo de columna: " ++ describe e))).

(** Tool [agregarRestriccionUnica]. *)
Definition agregarRestriccionUnica (tabla : string) (columnas : list string)
  (nombre : option string) : M Envelope :=
  try_catch
    (if ((tabla =? "")%string || (length columnas =? 0)%nat)%bool then
       ret (error_text "Debes proporcionar la tabla y al menos una columna.")
     else
       let restriccion :=
         match given nombre with Some n => quote n | None => "" end in
       let cols := join ", " (map (fun col => quote col) columnas) in
       let q := "ALTER TABLE " ++ quote tabla ++ " ADD CONSTRAINT "
                  ++ restriccion ++ " UNIQUE (" ++ cols ++ ")" in
       _ <- runQuery query_runner q ;;
       ret (ok_text "Restricción UNIQUE agregada exitosamente."))
    (fun e =>
       ret (error_text ("Error al agregar restricción UNIQUE: " ++ describe e))).

(** Tool [agregarClaveForanea]. *)
Definition agregarClaveForanea (tabla : string) (columnas : list string)
  (tablaReferencia : string) (columnasReferencia : list string)
  (nombre onDelete onUpdate : option string) : M Envelope :=
  try_catch
    (if ((tabla =? "")%string || (tablaReferencia =? "")%string)%bool then
       ret (error_text
              "Debes proporcionar tabla, columnas, tablaReferencia y columnasReferencia.")
     else
       let nombreFK :=
         match given nombre with
         | Some n => "CONSTRAINT " ++ quote n ++ " "
         | None => ""
         end in
       let cols := join ", " (map (fun col => quote col) columnas) in
       let refCols := join ", " (map (fun col => quote col) columnasReferencia) in
       let q := "ALTER TABLE " ++ quote tabla ++ " ADD " ++ nombreFK
                  ++ "FOREIGN KEY (" ++ cols ++ ") REFERENCES "
                  ++ quote tablaReferencia ++ " (" ++ refCols ++ ")" in
       let q := match given onDelete with
                | Some a => q ++ " ON DELETE " ++ a
                | None => q
                end in
       let q := match given onUpdate with
                | Some a => q ++ " ON UPDATE " ++ a
                | None => q
                end in
       _ <- runQuery query_runner q ;;
       ret (ok_text "Clave foránea agregada exitosamente."))
    (fun e => ret (error_text ("Error al agregar clave foránea: " ++ describe e))).

End OtherTools.

(** ** Properties stated over the remaining code *)

(** Neither a backtick nor a double quote occurs in [s]. *)
Definition quote_free (s : string) : bool :=
  all_chars (fun c => negb ((c =? "`")%char || (c =? "034")%char)%bool) s.

(** A run that sent nothing, or one statement without parameters. *)
Definition at_most_one_plain (before after : list Statement) : Prop :=
  after = before
  \/ exists q, after = (before ++ [ {| sql := q; params := None |} ])%list.

(** A run that returned. *)
Definition answers {A} (run : Outcome A * list Statement) : Prop :=
  exists a, reply run = Returned a.

(** The pool answers every statement of [sts], sent in this order after
    [log], with an array of rows. *)
Fixpoint all_arrays (p : Driver) (log : list Statement) (sts : list Statement)
  : bool :=
  match sts with
  | [] => true
  | st :: sts' =>
      match p log st with
      | Returned {| rows := RArray _ |} => all_arrays p (log ++ [st])%list sts'
      | _ => false
      end
  end.

(** The statement [getSchema] sends for a row of its table list; on MySQL
    the table name is read under the first key of the first row. *)
Definition columns_query_of (this : QueryRunner) (tables : list JsObject)
  : JsObject -> Statement :=
  if is_mysql (db_type this) then
    mysql_columns_of (nth 0 (keys (hd [] tables)) "undefined")
  else pg_columns_of.

(** The table name [getSchema] reports for a row of its table list. *)
Definition table_name_of (this : QueryRunner) (tables : list JsObject)
  (row : JsObject) : Value :=
  if is_mysql (db_type this) then
    get row (nth 0 (keys (hd [] tables)) "undefined")
  else get row "table_name".

(** The two calls [testConnection] makes before it releases. *)
Definition acquire_call (type : string) : PoolCall :=
  if is_mysql type then getConnection else connect.

Definition probe_call (type : string) : PoolCall :=
  if is_mysql type then ping else client_query "SELECT 1".

(** A database whose list of tables has the rows [tables] and whose tables
    all have the one column [id]. *)
Definition listing (tables : list JsObject) : Driver :=
  fun log _ =>
    match log with
    | [] => Returned {| rows := RArray tables; fields := None |}
    | _ => Returned {| rows := RArray [ [("Field", VStr "id"); ("Type", VStr "int")] ];
                       fields := None |}
    end.

(** A pool whose connections fail the liveness probe. *)
Definition dead_probe : Connections :=
  fun _ c =>
    match c with
    | ping | client_query _ =>
        Some {| name := "Error"; message := "connect ETIMEDOUT" |}
    | _ => None
    end.

(** The statements [crudTabla] builds for an update and for a delete. *)
Definition update_statement (db tabla : string) (datos filtro : JsObject)
  : Statement :=
  {| sql := "UPDATE " ++ quoteIdent db tabla ++ " SET "
              ++ join ", "
                   (assignments db (keys datos)
                      (makePlaceholders db (length datos) 0))
              ++ " WHERE "
              ++ join " AND "
                   (assignments db (keys filtro)
                      (makePlaceholders db (length filtro) (length datos)));
     params := Some (values datos ++ values filtro)%list |}.

Definition delete_statement (db tabla : string) (filtro : JsObject)
  : Statement :=
  {| sql := "DELETE FROM " ++ quoteIdent db tabla ++ " WHERE "
              ++ join " AND "
                   (assignments db (keys filtro)
                      (makePlaceholders db (length filtro) 0));
     params := Some (values filtro) |}.

(** The statement [exportarTabla] builds. *)
Definition export_statement (db tabla : string)
  (columnas : option (list string)) : Statement :=
  {| sql := "SELECT "
              ++ match columnas with
                 | Some (c :: cs) => join ", " (map (quoteIdent db) (c :: cs))
                 | _ => "*"
                 end
              ++ " FROM " ++ quoteIdent db tabla;
     params := None |}.

(** A CSV writer that refuses its input. *)
Definition refusing_csv : Rows -> Outcome string :=
  fun _ =>
    Thrown {| name := "Error";
              message := "Data should not be empty or the fields option should be included" |}.

(** ** The first version of the server (src/unnamed/part_000) *)

Module Inicial.

(** Tool [crearTabla] of the first version: a whole CREATE TABLE statement
    is given and checked by its beginning. *)
Definition crearTabla (query_runner : QueryRunner) (definicion : string)
  : M Envelope :=
  try_catch
    (if negb (test_prefix_i "create table" (trim definicion)) then
       ret (error_text "Solo se permiten sentencias CREATE TABLE.")
     else
       _ <- runQuery query_runner definicion ;;
       ret (ok_text "Tabla creada exitosamente."))
    (fun e => ret (error_text ("Error al crear la tabla: " ++ describe e))).

End Inicial.

(** A literal pattern anchored at the start and preceded by [\s*], under the
    [i] flag, as a language. *)
Definition matches_prefix (p s : string) : Prop :=
  exists w rest,
    s = w ++ rest /\ white_space_run w /\ test_prefix_i p rest = true.

(** A byte of the encoding of some white space character. *)
Definition white_space_byte (c : ascii) : bool :=
  existsb (fun w => negb (all_chars (fun x => negb (x =? c)%char) w)) white_space.

(** The first and the last character of a pattern are letters. *)
Definition starts_with_letter (p : string) : bool :=
  match p with
  | EmptyString => false
  | String a _ => capital (canonicalize a)
  end.

Fixpoint ends_with_letter (p : string) : bool :=
  match p with
  | EmptyString => false
  | String a EmptyString => capital (canonicalize a)
  | String _ p' => ends_with_letter p'
  end.

(** ** makePlaceholders on the numbers of JavaScript *)

(** [count] and [offset] are JavaScript numbers.  The tools pass array
    lengths and indices, for which the arithmetic is that of the naturals;
    this module follows the arithmetic of doubles for every non-negative
    integer, and settles from where the two part. *)
Module Js.

(** A number that holds a non-negative integer, or [Infinity]. *)
Inductive Number : Type :=
| Finite (x : N)
| Infinity.

(** The Number value of a non-negative integer: itself below 2^53; from
    there the nearest integer with a significand of 53 bits, the even
    significand when two are as near; [Infinity] from 2^1024 on. *)
Definition number_of (x : N) : Number :=
  if (x <? 9007199254740992)%N then Finite x
  else
    let sh := (N.size x - 53)%N in
    let q := N.shiftr x sh in
    let r := (x - N.shiftl q sh)%N in
    let half := N.shiftl 1 (sh - 1) in
    let q' := if ((half <? r)%N || ((r =? half)%N && N.odd q))%bool
              then (q + 1)%N else q in
    let y := N.shiftl q' sh in
    if (2 ^ 1024 <=? y)%N then Infinity else Finite y.

(** [a + b]. *)
Definition add (a b : Number) : Number :=
  match a, b with
  | Finite x, Finite y => number_of (x + y)
  | _, _ => Infinity
  end.

(** The decimal numeral of an integer. *)
Definition digits (x : N) : string := NilEmpty.string_of_uint (N.to_uint x).

(** The decimal [m] denotes the double [x]. *)
Definition reads_as (x m : N) : bool :=
  match number_of m with
  | Finite y => ((y =? x)%N && (0 <? m)%N)%bool
  | Infinity => false
  end.

(** The decimal with the fewest significant digits that denotes [x], the
    nearest to [x] among those, the one of even last digit when two are as
    near: the multiple [m] of the greatest power [10^z] that reads as [x]. *)
Fixpoint shortest (z : nat) (x : N) : N * nat :=
  let p := (10 ^ N.of_nat z)%N in
  let lo := (x / p * p)%N in
  let hi := (lo + p)%N in
  match reads_as x lo, reads_as x hi with
  | true, true =>
      if (x - lo <? hi - x)%N then (lo, z)
      else if (hi - x <? x - lo)%N then (hi, z)
      else if N.even (lo / p) then (lo, z) else (hi, z)
  | true, false => (lo, z)
  | false, true => (hi, z)
  | false, false =>
      match z with
      | 0 => (x, 0)
      | S z' => shortest z' x
      end
  end.

(** [`${v}`]: every digit of an integer below 2^53; from there the shortest
    decimal that denotes the double, written out up to 21 digits and with an
    exponent beyond. *)
Definition to_string (v : Number) : string :=
  match v with
  | Infinity => "Infinity"
  | Finite x =>
      if (x <? 9007199254740992)%N then digits x
      else
        let (m, z) := shortest (String.length (digits x)) x in
        let n := String.length (digits m) in
        if Nat.leb n 21 then digits m
        else
          let s := digits (m / 10 ^ N.of_nat z) in
          match s with
          | String d EmptyString => s ++ "e+" ++ digits (N.of_nat (n - 1))
          | String d rest =>
              String d ("." ++ rest) ++ "e+" ++ digits (N.of_nat (n - 1))
          | EmptyString => s
          end
  end.

Definition RangeError (msg : string) : JsError :=
  {| name := "RangeError"; message := msg |}.

(** [makePlaceholders(db_type, count, offset)] for integers [count] and
    [offset]: [Array(count)] and [Array.from({ length: count })] both
    construct an array of [count] elements, a [RangeError] from 2^32 on. *)
Definition makePlaceholders (db_type : string) (count offset : N)
  : Outcome (list string) :=
  match number_of count with
  | Infinity => Thrown (RangeError "Invalid array length")
  | Finite c =>
      if (4294967296 <=? c)%N then Thrown (RangeError "Invalid array length")
      else if is_mysql db_type then Returned (repeat "?" (N.to_nat c))
      else
        Returned
          (map (fun i =>
                  "$" ++ to_string
                           (add (add (Finite (N.of_nat i)) (Finite 1))
                              (number_of offset)))
             (seq 0 (N.to_nat c)))
  end.

End Js.

(** The keys every object inherits from [Object.prototype]: read under one
    of them, an object that has no such key of its own gives the inherited
    member, not [undefined]. *)
Definition Object_prototype_keys : list string :=
  [ "constructor"; "__defineGetter__"; "__defineSetter__"; "hasOwnProperty";
    "__lookupGetter__"; "__lookupSetter__"; "isPrototypeOf";
    "propertyIsEnumerable"; "toString"; "valueOf"; "__proto__";
    "toLocaleString" ].

(** The column definitions of a CREATE TABLE, one per line: the quoted name,
    a space and the type, a comma after each but the last. *)
Fixpoint column_lines (db : string) (columnas : list ColumnaDef) : string :=
  match columnas with
  | [] => ""
  | col :: rest =>
      quoteIdent db (nombre col) ++ " " ++ tipo col
        ++ match rest with
           | [] => ""
           | _ => "," ++ nl ++ column_lines db rest
           end
  end.

(** ** Placeholders *)

Lemma decimal_inj : forall n m, decimal n = decimal m -> n = m.
Proof.
  unfold decimal. intros n m H.
  apply (f_equal NilEmpty.uint_of_string) in H.
  rewrite !NilEmpty.usu in H. injection H as H.
  apply (f_equal Nat.of_uint) in H.
  now rewrite !DecimalNat.Unsigned.of_to in H.
Qed.

Lemma numbered_NoDup (l : list nat) :
  NoDup l -> NoDup (map (fun j => "$" ++ decimal j) l).
Proof.
  induction 1 as [|j l Hj _ IH]; simpl; constructor; [|exact IH].
  intros Hin. apply in_map_iff in Hin. destruct Hin as (i & Hi & Hil).
  simpl in Hi. injection Hi as Hi. apply decimal_inj in Hi. now subst i.
Qed.

Lemma map_seq_offset {B} (g : nat -> B) (c len start : nat) :
  map (fun i => g (i + c)) (seq start len) = map g (seq (start + c) len).
Proof.
  revert start. induction len as [|len IH]; intros start; simpl.
  - reflexivity.
  - f_equal. apply (IH (S start)).
Qed.

Lemma numbered_tokens (db : string) (n k : nat) :
  is_mysql db = false ->
  makePlaceholders db n k = map (fun j => "$" ++ decimal j) (seq (k + 1) n).
Proof.
  intros Hpg. unfold makePlaceholders. rewrite Hpg.
  replace (k + 1) with (0 + (1 + k)) by lia.
  rewrite <- (map_seq_offset (fun j => "$" ++ decimal j) (1 + k) n 0).
  apply map_ext. intros i. do 2 f_equal. lia.
Qed.

Lemma makePlaceholders_length (db : string) (n k : nat) :
  length (makePlaceholders db n k) = n.
Proof.
  unfold makePlaceholders. destruct (is_mysql db).
  - apply repeat_length.
  - now rewrite length_map, length_seq.
Qed.

(** The tokens of a group are the single tokens [makePlaceholders(db, 1, i)[0]]
    taken at consecutive offsets. *)
Lemma makePlaceholders_step (db : string) (n k : nat) :
  makePlaceholders db (S n) k =
  nth 0 (makePlaceholders db 1 k) "undefined" :: makePlaceholders db n (S k).
Proof.
  unfold makePlaceholders. destruct (is_mysql db); simpl.
  - reflexivity.
  - f_equal. rewrite <- seq_shift, map_map.
    apply map_ext. intros i. do 2 f_equal. lia.
Qed.

Lemma condiciones_from (qr : QueryRunner) (offset : nat) (cols : list string) :
  forall start,
    map_index
      (fun col i =>
         quoteIdent (db_type qr) col ++ " = " ++ placeholder_at qr (offset + i))
      start cols
    = assignments (db_type qr) cols
        (makePlaceholders (db_type qr) (length cols) (offset + start)).
Proof.
  induction cols as [|col cols IH]; intros start; simpl.
  - reflexivity.
  - rewrite makePlaceholders_step. unfold assignments. simpl.
    f_equal. rewrite IH. unfold assignments.
    now replace (offset + S start) with (S (offset + start)) by lia.
Qed.

Lemma condiciones_assignments (qr : QueryRunner) (offset : nat)
  (cols : list string) :
  condiciones qr offset cols
  = assignments (db_type qr) cols
      (makePlaceholders (db_type qr) (length cols) offset).
Proof.
  unfold condiciones. rewrite condiciones_from. now rewrite Nat.add_0_r.
Qed.

(** The tokens over the naturals, as the tools' statements are stated:
    [n] tokens, [n] times [?] on MySQL and [$k+1], ..., [$k+n] otherwise. *)
Lemma makePlaceholders_tokens (db : string) (n k : nat) :
  length (makePlaceholders db n k) = n /\
  makePlaceholders db n k =
    if (db =? "mysql")%string then repeat "?" n
    else map (fun j => "$" ++ decimal j) (seq (k + 1) n).
Proof.
  split.
  - apply makePlaceholders_length.
  - destruct (db =? "mysql")%string eqn:E.
    + unfold makePlaceholders, is_mysql. now rewrite E.
    + now apply numbered_tokens.
Qed.

(** ** Placeholders on the numbers of JavaScript *)

Lemma to_lu_of_nat (n : nat) :
  DecimalPos.Unsigned.to_lu (N.of_nat n) = DecimalNat.Unsigned.to_lu n.
Proof.
  induction n as [|n IH]; [reflexivity|].
  rewrite Nat2N.inj_succ, DecimalPos.Unsigned.to_lu_succ,
    DecimalNat.Unsigned.to_lu_succ.
  now rewrite IH.
Qed.

Lemma decimal_digits (n : nat) : decimal n = Js.digits (N.of_nat n).
Proof.
  unfold decimal, Js.digits. f_equal.
  rewrite DecimalNat.Unsigned.to_uint_alt, <- to_lu_of_nat.
  now destruct (N.of_nat n).
Qed.

Lemma number_of_safe (x : N) :
  (x < 9007199254740992)%N -> Js.number_of x = Js.Finite x.
Proof.
  intros H. unfold Js.number_of. apply N.ltb_lt in H. now rewrite H.
Qed.

Lemma to_string_safe (x : N) :
  (x < 9007199254740992)%N -> Js.to_string (Js.Finite x) = Js.digits x.
Proof.
  intros H. unfold Js.to_string. apply N.ltb_lt in H. now rewrite H.
Qed.

(** While every number involved stays a safe integer and the array can be
    constructed, the arithmetic of doubles is that of the naturals. *)
Lemma makePlaceholders_safe (db : string) (n k : N) :
  (n < 4294967296)%N -> (k + n < 9007199254740992)%N ->
  Js.makePlaceholders db n k
  = Returned (makePlaceholders db (N.to_nat n) (N.to_nat k)).
Proof.
  intros Hn Hk. unfold Js.makePlaceholders, makePlaceholders.
  rewrite (number_of_safe n) by lia.
  assert (Hc : (4294967296 <=? n)%N = false) by (apply N.leb_gt; exact Hn).
  rewrite Hc. destruct (is_mysql db); [reflexivity|].
  f_equal. apply map_ext_in. intros i Hi. apply in_seq in Hi.
  rewrite (number_of_safe k) by lia.
  unfold Js.add at 2. rewrite number_of_safe by lia.
  unfold Js.add. rewrite number_of_safe by lia.
  rewrite to_string_safe by lia.
  rewrite decimal_digits. do 2 f_equal. lia.
Qed.





(** ** The generic UPDATE *)

Lemma keys_length (o : JsObject) : length (keys o) = length o.
Proof. apply length_map. Qed.

Lemma not_empty_eqb (s : string) : s <> "" -> (s =? "")%string = false.
Proof. intros H. now apply String.eqb_neq. Qed.

(** C3. A [crudTabla] update of a named table with [d] data entries and [f]
    filter entries, both non-empty, sends exactly one statement: an UPDATE
    whose SET columns take the tokens of offset 0 and whose WHERE columns take
    the tokens of offset [d], bound to the SET values followed by the WHERE
    values, [d + f] in all, each group in its key order.  On the numbered
    dialect the SET tokens are [$1..$d], the WHERE tokens [$d+1..$d+f], and
    no token occurs twice. *)
Theorem crudTabla_update_statement
  (JSON_stringify : Rows -> string) (qr : QueryRunner) (tabla : string)
  (datos filtro : JsObject) (log : list Statement) :
  tabla <> "" -> datos <> [] -> filtro <> [] ->
  let db := db_type qr in
  let d := length datos in
  let f := length filtro in
  let set_tokens := makePlaceholders db d 0 in
  let where_tokens := makePlaceholders db f d in
  let valores := (values datos ++ values filtro)%list in
  sent (crudTabla JSON_stringify qr tabla update (Some datos) (Some filtro) log)
  = (log ++
       [ {| sql := "UPDATE " ++ quoteIdent db tabla
                     ++ " SET "
                     ++ join ", " (assignments db (keys datos) set_tokens)
                     ++ " WHERE "
                     ++ join " AND " (assignments db (keys filtro) where_tokens);
            params := Some valores |} ])%list
  /\ length valores = d + f
  /\ (is_mysql db = false ->
      set_tokens = map (fun j => "$" ++ decimal j) (seq 1 d)
      /\ where_tokens = map (fun j => "$" ++ decimal j) (seq (d + 1) f)
      /\ NoDup (set_tokens ++ where_tokens)%list).
Proof.
  intros Htabla Hdatos Hfiltro db d f set_tokens where_tokens valores.
  split; [|split].
  - destruct filtro as [|c filtro']; [contradiction|].
    unfold crudTabla, try_catch, bind, sent. rewrite (not_empty_eqb _ Htabla).
    cbn [Object_keys Object_values ret runQueryWithParams bind send fst snd].
    destruct (pool qr log _); cbn [snd ret].
    + rewrite !condiciones_assignments.
      unfold keys, values. now rewrite !length_map.
    + rewrite !condiciones_assignments.
      unfold keys, values. now rewrite !length_map.
  - unfold valores, values. now rewrite length_app, !length_map.
  - intros Hpg. unfold set_tokens, where_tokens.
    rewrite !(numbered_tokens _ _ _ Hpg). cbn [Nat.add].
    repeat split.
    rewrite <- map_app.
    replace (d + 1) with (1 + d) by lia. rewrite <- seq_app.
    apply numbered_NoDup, seq_NoDup.
Qed.

Lemma crudTabla_update_statement_witness :
  sent (crudTabla (fun _ => "") (pg_on accepting) "customers" update
          (Some [("email", VStr "a@b.com")]) (Some [("id", VNum 5)]) [])
  = [ {| sql := "UPDATE " ++ dquote ++ "customers" ++ dquote ++ " SET "
                  ++ dquote ++ "email" ++ dquote ++ " = $1 WHERE "
                  ++ dquote ++ "id" ++ dquote ++ " = $2";
         params := Some [VStr "a@b.com"; VNum 5] |} ].
Proof.
  exact (proj1 (crudTabla_update_statement (fun _ => "") (pg_on accepting)
                  "customers" [("email", VStr "a@b.com")] [("id", VNum 5)] []
                  ltac:(discriminate) ltac:(discriminate) ltac:(discriminate))).
Defined.

(** Without a table name [crudTabla] does nothing but answer with an error,
    whatever the action, the data and the filter. *)
Lemma crudTabla_empty_table_name
  (JSON_stringify : Rows -> string) (qr : QueryRunner) (accion : Accion)
  (datos filtro : option JsObject) (log : list Statement) :
  crudTabla JSON_stringify qr "" accion datos filtro log
  = (Returned (error_text "Debes especificar la tabla y la acción."), log).
Proof. reflexivity. Qed.

(** C3 as stated fails for the empty table name: data and filter are both
    non-empty, yet the first guard of the handler answers with an error and no
    UPDATE is built or sent. *)
Lemma crudTabla_update_without_table :
  crudTabla (fun _ => "[]") (pg_on accepting) "" update
    (Some [("email", VStr "a@b.com")]) (Some [("id", VNum 5)]) []
  = (Returned (error_text "Debes especificar la tabla y la acción."), [])
  /\ sent (crudTabla (fun _ => "[]") (pg_on accepting) "" update
             (Some [("email", VStr "a@b.com")]) (Some [("id", VNum 5)]) [])
     <> [ {| sql := "UPDATE " ++ quoteIdent "pg" ""
                      ++ " SET " ++ quoteIdent "pg" "email" ++ " = $1"
                      ++ " WHERE " ++ quoteIdent "pg" "id" ++ " = $2";
             params := Some [VStr "a@b.com"; VNum 5] |} ].
Proof. split; [reflexivity | discriminate]. Qed.

(** ** The read-only guard *)

Lemma append_assoc (a b c : string) : (a ++ b) ++ c = a ++ (b ++ c).
Proof. induction a as [|x a IH]; simpl; [reflexivity | now rewrite IH]. Qed.

Lemma append_length (a b : string) :
  String.length (a ++ b) = String.length a + String.length b.
Proof. induction a as [|x a IH]; simpl; [reflexivity | now rewrite IH]. Qed.

Lemma strip_prefix_some (p s rest : string) :
  strip_prefix p s = Some rest -> s = p ++ rest.
Proof.
  revert s. induction p as [|a p IH]; intros s H; simpl in *.
  - now injection H as ->.
  - destruct s as [|b s]; [discriminate|].
    destruct (a =? b)%char eqn:E; [|discriminate].
    apply Ascii.eqb_eq in E. subst b. now rewrite (IH s H).
Qed.

Lemma strip_one_some (table : list string) (s rest : string) :
  strip_one table s = Some rest -> exists w, In w table /\ s = w ++ rest.
Proof.
  induction table as [|w table IH]; simpl; [discriminate|].
  destruct (strip_prefix w s) eqn:E.
  - intros H. injection H as ->. exists w. split; [now left|].
    now apply strip_prefix_some.
  - intros H. destruct (IH H) as (w' & Hin & Hs). exists w'. split; [now right | exact Hs].
Qed.

(** No white space character is the beginning of another one, so the first
    entry of the table found at the head of a string is the character there. *)
Lemma strip_one_white_space (w rest : string) :
  In w white_space -> strip_one white_space (w ++ rest) = Some rest.
Proof.
  intros H. cbv in H.
  repeat (destruct H as [<-|H]; [reflexivity|]). contradiction.
Qed.

Lemma white_space_not_empty (w : string) :
  In w white_space -> 1 <= String.length w.
Proof.
  intros H. cbv in H.
  repeat (destruct H as [<-|H]; [simpl; lia|]). contradiction.
Qed.

(** A character that folds onto a letter does not begin a white space
    character. *)
Lemma letter_not_white_space (p c : ascii) (rest : string) :
  capital (canonicalize p) = true ->
  (canonicalize p =? canonicalize c)%char = true ->
  strip_one white_space (String c rest) = None.
Proof.
  intros Hp E. apply Ascii.eqb_eq in E. rewrite E in Hp. clear E p.
  destruct c as [[] [] [] [] [] [] [] []];
    (reflexivity || (cbv in Hp; discriminate Hp)).
Qed.

Lemma trimStart_fuel_run (w : string) :
  white_space_run w ->
  forall p rest fuel,
    letters p = true -> p <> "" -> test_prefix_i p rest = true ->
    String.length w <= fuel ->
    trimStart_fuel fuel (w ++ rest) = rest.
Proof.
  induction 1 as [|w s Hw Hs IH]; intros p rest fuel Hp Hne Ht Hfuel.
  - cbn [append]. destruct fuel as [|fuel]; [reflexivity|].
    cbn [trimStart_fuel].
    destruct p as [|a p]; [contradiction|].
    destruct rest as [|c rest]; [discriminate|].
    simpl in Hp, Ht.
    apply andb_prop in Hp as [Ha _]. apply andb_prop in Ht as [Hc _].
    now rewrite (letter_not_white_space a c rest Ha Hc).
  - rewrite append_length in Hfuel.
    pose proof (white_space_not_empty w Hw) as Hlen.
    destruct fuel as [|fuel]; [lia|].
    rewrite append_assoc. cbn [trimStart_fuel].
    rewrite (strip_one_white_space _ _ Hw).
    apply (IH p); auto. lia.
Qed.

Lemma trimStart_fuel_split (fuel : nat) :
  forall s, exists w, white_space_run w /\ s = w ++ trimStart_fuel fuel s.
Proof.
  induction fuel as [|fuel IH]; intros s; cbn [trimStart_fuel].
  - exists "". split; [constructor | reflexivity].
  - destruct (strip_one white_space s) as [rest|] eqn:E.
    + destruct (strip_one_some _ _ _ E) as (w & Hw & Hs).
      destruct (IH rest) as (w' & Hw' & Hrest).
      exists (w ++ w'). split; [now constructor|].
      rewrite append_assoc, <- Hrest. exact Hs.
    + exists "". split; [constructor | reflexivity].
Qed.

Lemma trimEnd_letter (c : ascii) (s : string) :
  strip_one white_space (String c s) = None ->
  trimEnd (String c s) = String c (trimEnd s).
Proof.
  intros H. cbn [trimEnd]. unfold blank, trimStart.
  cbn [String.length trimStart_fuel]. now rewrite H.
Qed.

Lemma trimEnd_keeps_prefix (p : string) :
  letters p = true ->
  forall s, test_prefix_i p s = true -> test_prefix_i p (trimEnd s) = true.
Proof.
  induction p as [|a p IH]; intros Hp s Ht; [reflexivity|].
  destruct s as [|c s]; [discriminate|].
  cbn [letters test_prefix_i] in Hp, Ht.
  apply andb_prop in Hp as [Ha Hp]. apply andb_prop in Ht as [Hc Ht].
  rewrite (trimEnd_letter c s (letter_not_white_space a c s Ha Hc)).
  cbn [test_prefix_i]. rewrite Hc. now apply IH.
Qed.

Lemma trimEnd_is_prefix (s : string) : exists x, s = trimEnd s ++ x.
Proof.
  induction s as [|c s [x IH]].
  - now exists "".
  - cbn [trimEnd]. destruct (blank (String c s)).
    + now exists (String c s).
    + exists x. simpl. now rewrite <- IH.
Qed.

Lemma test_prefix_i_app (p s x : string) :
  test_prefix_i p s = true -> test_prefix_i p (s ++ x) = true.
Proof.
  revert s. induction p as [|a p IH]; intros s H; [reflexivity|].
  destruct s as [|c s]; [discriminate|]. simpl in *.
  apply andb_prop in H as [Hc H]. rewrite Hc. now apply IH.
Qed.

(** The guard of [consultarSQL] decides the language of [^\s*select]. *)
Lemma select_guard (s : string) :
  test_prefix_i "select" (trim s) = true <-> matches_select s.
Proof.
  unfold trim, trimStart. split.
  - intros H.
    destruct (trimStart_fuel_split (String.length s) s) as (w & Hw & Hs).
    exists w, (trimStart_fuel (String.length s) s). repeat split; auto.
    destruct (trimEnd_is_prefix (trimStart_fuel (String.length s) s)) as [x Hx].
    rewrite Hx. now apply test_prefix_i_app.
  - intros (w & rest & -> & Hw & Ht).
    rewrite (trimStart_fuel_run w Hw "select" rest); auto.
    + now apply trimEnd_keeps_prefix.
    + discriminate.
    + rewrite append_length. lia.
Qed.

Lemma runQuery_sent (qr : QueryRunner) (q : string) (log : list Statement) :
  sent (runQuery qr q log) = (log ++ [ {| sql := q; params := None |} ])%list.
Proof.
  unfold runQuery, bind, send, sent.
  destruct (pool qr log _); [destruct (is_mysql (db_type qr))|]; reflexivity.
Qed.

(** C2. [consultarSQL] answers a text outside the language of [^\s*select]
    (case-insensitive) with the error "Solo se permiten consultas SELECT."
    and sends nothing to the pool; a text inside that language is sent to
    the pool as it was given, as one statement without parameters. *)
Theorem consultarSQL_select_guard
  (qr : QueryRunner) (consulta : string) (log : list Statement) :
  (~ matches_select consulta ->
   consultarSQL qr consulta log
   = (Returned (error_text "Solo se permiten consultas SELECT."), log))
  /\
  (matches_select consulta ->
   sent (consultarSQL qr consulta log)
   = (log ++ [ {| sql := consulta; params := None |} ])%list).
Proof.
  destruct (test_prefix_i "select" (trim consulta)) eqn:E.
  - apply select_guard in E. split; [intros H; contradiction | intros _].
    pose proof (runQuery_sent qr consulta log) as Hsent.
    apply select_guard in E.
    unfold consultarSQL, try_catch, bind, sent in *. rewrite E. cbn [negb].
    destruct (runQuery qr consulta log) as [[result|e] log']; cbn [snd] in *.
    + destruct (result_rows result) as [[|fila filas]| |];
        cbn [ret throw snd]; exact Hsent.
    + exact Hsent.
  - split; [intros _ | intros H].
    + unfold consultarSQL, try_catch. now rewrite E.
    + apply select_guard in H. congruence.
Qed.

Lemma consultarSQL_select_guard_witness :
  consultarSQL (mysql_on accepting) "DROP TABLE clientes" []
  = (Returned (error_text "Solo se permiten consultas SELECT."), [])
  /\ sent (consultarSQL (pg_on accepting) "  SeLeCt 1" [])
     = [ {| sql := "  SeLeCt 1"; params := None |} ].
Proof.
  split.
  - apply (proj1 (consultarSQL_select_guard (mysql_on accepting)
                    "DROP TABLE clientes" [])).
    intros H. apply select_guard in H. vm_compute in H. discriminate H.
  - apply (proj2 (consultarSQL_select_guard (pg_on accepting) "  SeLeCt 1" [])).
    apply select_guard. vm_compute. reflexivity.
Defined.

(** ** The destructive tools *)

Lemma runQuery_result (qr : QueryRunner) (q : string) (log : list Statement) :
  match pool qr log {| sql := q; params := None |} with
  | Returned _ => exists r, reply (runQuery qr q log) = Returned r
  | Thrown e => reply (runQuery qr q log) = Thrown e
  end.
Proof.
  unfold runQuery, bind, send, reply.
  destruct (pool qr log _); [|reflexivity].
  destruct (is_mysql (db_type qr)); eexists; reflexivity.
Qed.

Lemma runQueryWithParams_sent (qr : QueryRunner) (q : string)
  (ps : list Value) (log : list Statement) :
  sent (runQueryWithParams qr q ps log)
  = (log ++ [ {| sql := q; params := Some ps |} ])%list.
Proof.
  unfold runQueryWithParams, bind, send, sent.
  destruct (pool qr log _); reflexivity.
Qed.

(** What a tool sends when all it does is pass one statement to [runQuery]
    and report. *)
Lemma run_then_report (qr : QueryRunner) (q : string) (good : Envelope)
  (bad : JsError -> Envelope) (log : list Statement) :
  sent (try_catch (_ <- runQuery qr q ;; ret good) (fun e => ret (bad e)) log)
  = (log ++ [ {| sql := q; params := None |} ])%list.
Proof.
  pose proof (runQuery_sent qr q log) as H.
  unfold try_catch, bind, sent in *.
  destruct (runQuery qr q log) as [[r|e] log']; exact H.
Qed.

(** C1, as the code has it.  No destructive tool takes or compares a
    confirmation phrase: what each one sends is decided by its target names
    alone.  With every name non-empty (and, for the delete of [crudTabla], a
    non-empty filter) it sends exactly one statement, the DROP, ALTER or
    DELETE of its targets; otherwise it sends nothing. *)
Theorem destructive_tools_check_names_only
  (JSON_stringify : Rows -> string) (qr : QueryRunner)
  (log : list Statement) :
  let db := db_type qr in
  (forall nombreTabla,
     sent (eliminarTabla qr nombreTabla log)
     = if (nombreTabla =? "")%string then log
       else (log ++ [ {| sql := "DROP TABLE IF EXISTS "
                                  ++ quoteIdent db nombreTabla;
                         params := None |} ])%list)
  /\
  (forall tabla columna,
     sent (eliminarColumna qr tabla columna log)
     = if ((tabla =? "")%string || (columna =? "")%string)%bool then log
       else (log ++ [ {| sql := "ALTER TABLE " ++ quoteIdent db tabla
                                  ++ " DROP COLUMN " ++ quoteIdent db columna;
                         params := None |} ])%list)
  /\
  (forall tabla nombre,
     sent (eliminarRestriccionUnica qr tabla nombre log)
     = if ((tabla =? "")%string || (nombre =? "")%string)%bool then log
       else (log ++ [ {| sql := "ALTER TABLE " ++ quoteIdent db tabla
                                  ++ (if is_mysql db then " DROP INDEX "
                                      else " DROP CONSTRAINT ")
                                  ++ quoteIdent db nombre;
                         params := None |} ])%list)
  /\
  (forall tabla nombre,
     sent (eliminarClaveForanea qr tabla nombre log)
     = if ((tabla =? "")%string || (nombre =? "")%string)%bool then log
       else (log ++ [ {| sql := "ALTER TABLE " ++ quoteIdent db tabla
                                  ++ (if is_mysql db then " DROP FOREIGN KEY "
                                      else " DROP CONSTRAINT ")
                                  ++ quoteIdent db nombre;
                         params := None |} ])%list)
  /\
  (forall tabla datos filtro,
     sent (crudTabla JSON_stringify qr tabla delete datos filtro log)
     = match filtro with
       | Some (c :: f) =>
           if (tabla =? "")%string then log
           else (log ++
                   [ {| sql := "DELETE FROM " ++ quoteIdent db tabla
                                 ++ " WHERE "
                                 ++ join " AND "
                                      (assignments db (keys (c :: f))
                                         (makePlaceholders db
                                            (length (c :: f)) 0));
                        params := Some (values (c :: f)) |} ])%list
       | _ => log
       end).
Proof.
  intros db. repeat split.
  - intros nombreTabla. unfold eliminarTabla.
    destruct (nombreTabla =? "")%string; [reflexivity|]. apply run_then_report.
  - intros tabla columna. unfold eliminarColumna.
    destruct ((tabla =? "")%string || (columna =? "")%string)%bool;
      [reflexivity|]. apply run_then_report.
  - intros tabla nombre. unfold eliminarRestriccionUnica.
    destruct ((tabla =? "")%string || (nombre =? "")%string)%bool;
      [reflexivity|]. cbv zeta. rewrite run_then_report. fold db.
    destruct (is_mysql db); reflexivity.
  - intros tabla nombre. unfold eliminarClaveForanea.
    destruct ((tabla =? "")%string || (nombre =? "")%string)%bool;
      [reflexivity|]. cbv zeta. rewrite run_then_report. fold db.
    destruct (is_mysql db); reflexivity.
  - intros tabla datos filtro. unfold crudTabla, try_catch, sent.
    destruct (tabla =? "")%string; [now destruct filtro as [[|c f]|]|].
    destruct filtro as [[|c f]|]; try reflexivity.
    pose proof (runQueryWithParams_sent qr
                  ("DELETE FROM " ++ quoteIdent db tabla ++ " WHERE "
                     ++ join " AND " (condiciones qr 0 (keys (c :: f))))
                  (values (c :: f)) log) as H.
    rewrite condiciones_assignments, keys_length in H.
    unfold bind, sent in *. cbn [ret].
    rewrite condiciones_assignments, keys_length. subst db.
    destruct (runQueryWithParams qr _ (values (c :: f)) log) as [[r|e] log'];
      exact H.
Qed.

(** C1 as stated fails: [eliminarTabla] is given the table name and nothing
    else, no phrase "Confirmar eliminación de la tabla clientes" among what
    the caller supplied, and the DROP is sent all the same. *)
Lemma eliminarTabla_not_confirmation_gated :
  ~ confirmation_gated ["clientes"] (frase_eliminarTabla "clientes") []
      (sent (eliminarTabla (mysql_on accepting) "clientes" [])).
Proof.
  unfold confirmation_gated. intros H.
  assert (Hno : ~ In (frase_eliminarTabla "clientes") ["clientes"]).
  { intros [E|[]]. discriminate E. }
  specialize (H Hno). vm_compute in H. discriminate H.
Qed.

(** C9. For a non-empty table name [eliminarTabla] sends the single
    statement DROP TABLE IF EXISTS of the quoted name, without looking the
    table up first, and whenever the database accepts it, as both engines do
    when no such table exists, the reply is the success message
    "Tabla '<name>' eliminada exitosamente.", not an error. *)
Theorem eliminarTabla_if_exists_success
  (qr : QueryRunner) (nombreTabla : string) (log : list Statement) :
  nombreTabla <> "" ->
  let drop := {| sql := "DROP TABLE IF EXISTS "
                          ++ quoteIdent (db_type qr) nombreTabla;
                 params := None |} in
  accepts (pool qr) log [drop] = true ->
  eliminarTabla qr nombreTabla log
  = (Returned (ok_text ("Tabla '" ++ nombreTabla ++ "' eliminada exitosamente.")),
     (log ++ [drop])%list).
Proof.
  intros Hname drop Hok. unfold eliminarTabla.
  rewrite (not_empty_eqb _ Hname).
  pose proof (runQuery_sent qr (sql drop) log) as Hsent.
  pose proof (runQuery_result qr (sql drop) log) as Hres.
  cbn [accepts] in Hok. change {| sql := sql drop; params := None |} with drop in Hres.
  destruct (pool qr log drop); [|discriminate Hok].
  destruct Hres as [r Hr].
  unfold try_catch, bind, sent, reply in *. cbn [sql drop] in *.
  destruct (runQuery qr _ log) as [out log']. cbn [fst snd] in *.
  now subst out log'.
Qed.

Lemma eliminarTabla_if_exists_success_witness :
  eliminarTabla (mysql_on accepting) "fantasma" []
  = (Returned (ok_text "Tabla 'fantasma' eliminada exitosamente."),
     [ {| sql := "DROP TABLE IF EXISTS `fantasma`"; params := None |} ]).
Proof.
  apply (eliminarTabla_if_exists_success (mysql_on accepting) "fantasma" []).
  - discriminate.
  - reflexivity.
Defined.

(** ** The column probe *)

Lemma getTableColumns_sent (qr : QueryRunner) (table : string)
  (log : list Statement) :
  sent (getTableColumns qr table log) = (log ++ [columns_probe qr table])%list.
Proof.
  unfold getTableColumns, columns_probe, try_catch, bind, send, sent.
  destruct (is_mysql (db_type qr));
    (destruct (pool qr log _) as [res|e]; [destruct (rows res)|]); reflexivity.
Qed.

Lemma getTableColumns_returns (qr : QueryRunner) (table : string)
  (log : list Statement) :
  exists cols, reply (getTableColumns qr table log) = Returned cols.
Proof.
  unfold getTableColumns, try_catch, bind, send, reply.
  destruct (is_mysql (db_type qr));
    (destruct (pool qr log _) as [res|e]; [destruct (rows res)|]);
    eexists; reflexivity.
Qed.

(** C7. [getTableColumns] never throws, whatever the pool answers; and when
    the engine answers as it does for a table that does not exist (an error
    on MySQL, no row on PostgreSQL) it returns the empty sequence, which
    [columnasDeTabla] reports as a table without columns, not as an error. *)
Theorem getTableColumns_missing_table
  (qr : QueryRunner) (table : string) (log : list Statement) :
  (exists cols, reply (getTableColumns qr table log) = Returned cols)
  /\
  (table_missing qr (pool qr log (columns_probe qr table)) ->
   getTableColumns qr table log
   = (Returned [], (log ++ [columns_probe qr table])%list)
   /\ columnasDeTabla qr table log
      = (Returned (ok_text ("La tabla '" ++ table ++ "' no tiene columnas.")),
         (log ++ [columns_probe qr table])%list)).
Proof.
  split; [apply getTableColumns_returns|].
  intros Hmissing.
  assert (H : getTableColumns qr table log
              = (Returned [], (log ++ [columns_probe qr table])%list)).
  { unfold table_missing, columns_probe in *.
    unfold getTableColumns, try_catch, bind, send.
    destruct (is_mysql (db_type qr)).
    - destruct Hmissing as [e ->]. reflexivity.
    - destruct Hmissing as [f ->]. reflexivity. }
  split; [exact H|].
  unfold columnasDeTabla, try_catch, bind. now rewrite H.
Qed.

Lemma getTableColumns_missing_table_witness :
  getTableColumns (mysql_on no_such_table) "fantasma" []
  = (Returned [], [ {| sql := "SHOW COLUMNS FROM `fantasma`"; params := None |} ])
  /\ getTableColumns (pg_on accepting) "fantasma" []
     = (Returned [],
        [ {| sql := pg_columns_query; params := Some [VStr "fantasma"] |} ]).
Proof.
  split.
  - apply (proj2 (getTableColumns_missing_table
                    (mysql_on no_such_table) "fantasma" [])).
    simpl. eexists. reflexivity.
  - apply (proj2 (getTableColumns_missing_table
                    (pg_on accepting) "fantasma" [])).
    simpl. eexists. reflexivity.
Defined.

(** ** CREATE TABLE *)

(** The column list of the DDL, joined or written out line by line. *)
Lemma join_column_lines (db : string) (columnas : list ColumnaDef) :
  join ("," ++ nl)
    (map (fun col => quoteIdent db (nombre col) ++ " " ++ tipo col) columnas)
  = column_lines db columnas.
Proof.
  unfold join.
  induction columnas as [|col rest IH]; [reflexivity|].
  destruct rest as [|col' rest'].
  - cbn [map String.concat column_lines].
    assert (Hnil : forall s : string, s ++ "" = s).
    { induction s as [|a s IHs]; cbn; [reflexivity | now rewrite IHs]. }
    now rewrite Hnil.
  - change (column_lines db (col :: col' :: rest'))
      with (quoteIdent db (nombre col) ++ " " ++ tipo col
              ++ "," ++ nl ++ column_lines db (col' :: rest')).
    rewrite <- IH.
    change (String.concat ("," ++ nl)
              (map (fun c => quoteIdent db (nombre c) ++ " " ++ tipo c)
                 (col :: col' :: rest')))
      with ((quoteIdent db (nombre col) ++ " " ++ tipo col) ++ ("," ++ nl)
              ++ String.concat ("," ++ nl)
                   (map (fun c => quoteIdent db (nombre c) ++ " " ++ tipo c)
                      (col' :: rest'))).
    now rewrite !append_assoc.
Qed.

(** C8, with the validation the handler makes first.  Without a table name
    or without any column definition [crearTabla] answers with a validation
    error and sends nothing, not even the probe.  For a named table and at
    least one column definition it first probes the columns of the table.
    If the probe finds any, the reply is the already-exists message and
    nothing but the probe was sent; if it finds none, exactly one CREATE TABLE
    follows, its text the quoted table name and one line [<quoted name>
    <type>] per column definition in order, separated by commas; the reply is
    the success confirmation once the database accepts it, and the error of
    the database otherwise. *)
Theorem crearTabla_existence_check
  (qr : QueryRunner) (nombreTabla : string) (columnas : list ColumnaDef)
  (log : list Statement) (cols : list Value) :
  reply (getTableColumns qr nombreTabla log) = Returned cols ->
  let db := db_type qr in
  let probe := columns_probe qr nombreTabla in
  let ddl :=
    {| sql := "CREATE TABLE " ++ quoteIdent db nombreTabla ++ " (" ++ nl
                ++ column_lines db columnas ++ nl ++ ")";
       params := None |} in
  (nombreTabla = "" \/ columnas = [] ->
   crearTabla qr nombreTabla columnas log
   = (Returned (error_text
                  "Debes proporcionar un nombre de tabla y al menos una columna."),
      log))
  /\
  (nombreTabla <> "" -> columnas <> [] -> cols <> [] ->
   crearTabla qr nombreTabla columnas log
   = (Returned (ok_text ("La tabla '" ++ nombreTabla
                           ++ "' ya existe. No es necesario crearla.")),
      (log ++ [probe])%list))
  /\
  (nombreTabla <> "" -> columnas <> [] -> cols = [] ->
   sent (crearTabla qr nombreTabla columnas log) = (log ++ [probe; ddl])%list
   /\ (accepts (pool qr) (log ++ [probe]) [ddl] = true ->
       reply (crearTabla qr nombreTabla columnas log)
       = Returned (ok_text "Tabla creada exitosamente."))
   /\ (forall e, pool qr (log ++ [probe])%list ddl = Thrown e ->
       reply (crearTabla qr nombreTabla columnas log)
       = Returned (error_text ("Error al crear la tabla: " ++ describe e)))).
Proof.
  intros Hprobe db probe ddl.
  split; [|split].
  - intros Hbad. unfold crearTabla, try_catch.
    replace ((nombreTabla =? "")%string || (length columnas =? 0)%nat)%bool
      with true; [reflexivity|].
    destruct Hbad as [-> | ->]; [reflexivity|].
    now rewrite orb_true_r.
  - intros Hname Hcols Hsome.
    pose proof (getTableColumns_sent qr nombreTabla log) as Hsent.
    unfold reply, sent in Hprobe, Hsent.
    unfold crearTabla. rewrite (not_empty_eqb _ Hname).
    destruct columnas as [|col rest]; [contradiction|]. cbn [length Nat.eqb orb].
    unfold try_catch, bind.
    destruct (getTableColumns qr nombreTabla log) as [out log'].
    cbn [fst snd] in Hprobe, Hsent. subst out log'. cbn [ret].
    destruct cols; [contradiction|]. reflexivity.
  - intros Hname Hcols ->.
    pose proof (getTableColumns_sent qr nombreTabla log) as Hsent.
    pose proof (runQuery_sent qr (sql ddl) (log ++ [probe])%list) as Hs.
    pose proof (runQuery_result qr (sql ddl) (log ++ [probe])%list) as Hr.
    change {| sql := sql ddl; params := None |} with ddl in Hr.
    rewrite <- app_assoc in Hs. cbn [app] in Hs.
    unfold crearTabla. rewrite (not_empty_eqb _ Hname).
    destruct columnas as [|col rest]; [contradiction|]. cbn [length Nat.eqb orb].
    rewrite join_column_lines.
    unfold reply, sent in *. unfold try_catch, bind.
    destruct (getTableColumns qr nombreTabla log) as [out log'].
    cbn [fst snd] in Hprobe, Hsent. subst out log'.
    cbn [ret length Nat.eqb negb]. fold probe. cbn [sql ddl] in *. fold db.
    destruct (runQuery qr _ (log ++ [probe])%list) as [[r|e] log'];
      cbn [fst snd] in *; subst log'.
    + split; [reflexivity|]. split; [reflexivity|].
      intros e He. rewrite He in Hr. discriminate Hr.
    + split; [reflexivity|]. split.
      * intros Hok. cbn [accepts] in Hok.
        destruct (pool qr (log ++ [probe])%list ddl); [|discriminate Hok].
        destruct Hr as [r Hr]. discriminate Hr.
      * intros e' He'. rewrite He' in Hr. now inversion Hr.
Qed.

Lemma crearTabla_existence_check_witness :
  crearTabla (mysql_on with_columns) "products"
    [ {| nombre := "id"; tipo := "INT PRIMARY KEY" |};
      {| nombre := "name"; tipo := "VARCHAR(100)" |} ] []
  = (Returned (ok_text "La tabla 'products' ya existe. No es necesario crearla."),
     [ {| sql := "SHOW COLUMNS FROM `products`"; params := None |} ])
  /\
  sent (crearTabla (mysql_on no_such_table) "products"
          [ {| nombre := "id"; tipo := "INT PRIMARY KEY" |};
            {| nombre := "name"; tipo := "VARCHAR(100)" |} ] [])
  = [ {| sql := "SHOW COLUMNS FROM `products`"; params := None |};
      {| sql := "CREATE TABLE `products` ("
                  ++ String "010"%char
                       ("`id` INT PRIMARY KEY,"
                          ++ String "010"%char
                               ("`name` VARCHAR(100)"
                                  ++ String "010"%char ")"));
         params := None |} ]
  /\
  reply (crearTabla (pg_on accepting) "products"
           [ {| nombre := "id"; tipo := "INT PRIMARY KEY" |};
             {| nombre := "name"; tipo := "VARCHAR(100)" |} ] [])
  = Returned (ok_text "Tabla creada exitosamente.")
  /\
  crearTabla (pg_on accepting) "products" [] []
  = (Returned (error_text
                 "Debes proporcionar un nombre de tabla y al menos una columna."),
     []).
Proof.
  split; [|split; [|split]].
  - apply (proj1 (proj2 (crearTabla_existence_check (mysql_on with_columns)
                           "products"
                           [ {| nombre := "id"; tipo := "INT PRIMARY KEY" |};
                             {| nombre := "name"; tipo := "VARCHAR(100)" |} ] []
                           [VStr "id"; VStr "name"] eq_refl)));
      discriminate.
  - apply (proj1 (proj2 (proj2 (crearTabla_existence_check
                           (mysql_on no_such_table) "products"
                           [ {| nombre := "id"; tipo := "INT PRIMARY KEY" |};
                             {| nombre := "name"; tipo := "VARCHAR(100)" |} ] []
                           [] eq_refl))
                   ltac:(discriminate) ltac:(discriminate) eq_refl)).
  - apply (proj1 (proj2 (proj2 (proj2 (crearTabla_existence_check
                           (pg_on accepting) "products"
                           [ {| nombre := "id"; tipo := "INT PRIMARY KEY" |};
                             {| nombre := "name"; tipo := "VARCHAR(100)" |} ] []
                           [] eq_refl))
                   ltac:(discriminate) ltac:(discriminate) eq_refl))).
    reflexivity.
  - apply (proj1 (crearTabla_existence_check (pg_on accepting) "products" [] []
                    [] eq_refl)).
    now right.
Defined.

(** C8 as stated fails without a column definition: the table exists, its
    probe would list the columns [id] and [name], yet the reply is the
    validation error, not the already-exists message, and the probe is never
    sent.  And when the database refuses the CREATE TABLE the reply is its
    error, not a confirmation. *)
Lemma crearTabla_without_columns :
  reply (getTableColumns (mysql_on with_columns) "products" [])
  = Returned [VStr "id"; VStr "name"]
  /\ crearTabla (mysql_on with_columns) "products" [] []
     = (Returned (error_text
                    "Debes proporcionar un nombre de tabla y al menos una columna."),
        [])
  /\ reply (getTableColumns (mysql_on no_such_table) "products" []) = Returned []
  /\ reply (crearTabla (mysql_on no_such_table) "products"
              [ {| nombre := "id"; tipo := "INT" |} ] [])
     = Returned (error_text
                   "Error al crear la tabla: Table 'db.t' doesn't exist").
Proof. repeat split. Qed.

(** ** The filter and data guards of crudTabla *)

(** C5. With the filter absent or empty, an update and a delete are answered
    with an error and send nothing, whatever the other arguments; a read of a
    named table sends one SELECT of the whole table, without a WHERE clause
    and without parameters. *)
Theorem crudTabla_empty_filter
  (JSON_stringify : Rows -> string) (qr : QueryRunner) (tabla : string)
  (datos filtro : option JsObject) (log : list Statement) :
  filtro = None \/ filtro = Some [] ->
  (exists msg,
     crudTabla JSON_stringify qr tabla update datos filtro log
     = (Returned (error_text msg), log))
  /\
  (exists msg,
     crudTabla JSON_stringify qr tabla delete datos filtro log
     = (Returned (error_text msg), log))
  /\
  (tabla <> "" ->
   sent (crudTabla JSON_stringify qr tabla read datos filtro log)
   = (log ++ [ {| sql := "SELECT * FROM " ++ quoteIdent (db_type qr) tabla ++ " ";
                  params := Some [] |} ])%list).
Proof.
  intros Hfiltro. unfold crudTabla, try_catch. repeat split.
  - destruct (tabla =? "")%string; [eexists; reflexivity|].
    destruct datos; destruct Hfiltro as [-> | ->]; eexists; reflexivity.
  - destruct (tabla =? "")%string; [eexists; reflexivity|].
    destruct datos; destruct Hfiltro as [-> | ->]; eexists; reflexivity.
  - intros Htabla. rewrite (not_empty_eqb _ Htabla).
    pose proof (runQueryWithParams_sent qr
                  ("SELECT * FROM " ++ quoteIdent (db_type qr) tabla ++ " ")
                  [] log) as H.
    unfold bind, sent in *.
    destruct Hfiltro as [-> | ->]; cbn [ret];
      (destruct (runQueryWithParams qr _ [] log) as [[r|e] log']; exact H).
Qed.

Lemma crudTabla_empty_filter_witness :
  (exists msg,
     crudTabla (fun _ => "[]") (mysql_on accepting) "clientes" delete None
       (Some []) []
     = (Returned (error_text msg), []))
  /\
  sent (crudTabla (fun _ => "[]") (mysql_on accepting) "clientes" read None None [])
  = [ {| sql := "SELECT * FROM `clientes` "; params := Some [] |} ].
Proof.
  split.
  - apply (proj1 (proj2 (crudTabla_empty_filter (fun _ => "[]")
                           (mysql_on accepting) "clientes" None (Some []) []
                           (or_intror eq_refl)))).
  - apply (proj2 (proj2 (crudTabla_empty_filter (fun _ => "[]")
                           (mysql_on accepting) "clientes" None None []
                           (or_introl eq_refl)))).
    discriminate.
Defined.

(** C5 as stated fails for the empty table name: a read with an absent or an
    empty filter is then answered with an error, and no SELECT is built or
    sent. *)
Lemma crudTabla_read_without_table :
  crudTabla (fun _ => "[]") (mysql_on accepting) "" read None None []
  = (Returned (error_text "Debes especificar la tabla y la acción."), [])
  /\ crudTabla (fun _ => "[]") (mysql_on accepting) "" read None (Some []) []
     = (Returned (error_text "Debes especificar la tabla y la acción."), [])
  /\ sent (crudTabla (fun _ => "[]") (mysql_on accepting) "" read None None [])
     <> [ {| sql := "SELECT * FROM " ++ quoteIdent "mysql" "" ++ " ";
             params := Some [] |} ].
Proof. split; [reflexivity | split; [reflexivity | discriminate]]. Qed.

(** C6 at its failing input.  A create whose data object is present but has
    no key passes the data guard: an INSERT with an empty column list is
    built, sent, and reported as a created record; an update with such data
    sends an UPDATE whose SET clause is empty. *)
Theorem crudTabla_empty_datos_reaches_pool :
  crudTabla (fun _ => "[]") (mysql_on accepting) "clientes" create (Some [])
    None []
  = (Returned (ok_text "Registro creado exitosamente."),
     [ {| sql := "INSERT INTO `clientes` () VALUES ()"; params := Some [] |} ])
  /\
  sent (crudTabla (fun _ => "[]") (mysql_on accepting) "clientes" update
          (Some []) (Some [("id", VNum 5)]) [])
  = [ {| sql := "UPDATE `clientes` SET  WHERE `id` = ?";
         params := Some [VNum 5] |} ].
Proof. split; reflexivity. Qed.

(** ** Bulk insertion *)

Lemma send_each_accepted (p : Driver) (sts : list Statement) :
  forall n log,
    accepts p log sts = true ->
    send_each p sts n log = (Returned (n + length sts), (log ++ sts)%list).
Proof.
  induction sts as [|st sts IH]; intros n log Hok; cbn [send_each accepts] in *.
  - unfold ret. now rewrite Nat.add_0_r, app_nil_r.
  - unfold bind, send. cbv beta. destruct (p log st); [|discriminate Hok].
    rewrite (IH (S n) _ Hok). cbn [length]. rewrite <- app_assoc.
    f_equal. f_equal. lia.
Qed.

Lemma send_each_refused (p : Driver) (done : list Statement) :
  forall st rest e n log,
    accepts p log done = true ->
    p (log ++ done)%list st = Thrown e ->
    send_each p (done ++ st :: rest) n log
    = (Thrown e, (log ++ done ++ [st])%list).
Proof.
  induction done as [|d done IH]; intros st rest e n log Hok Hst.
  - rewrite app_nil_r in Hst. rewrite !app_nil_l. cbn [send_each].
    unfold bind, send. cbv beta. now rewrite Hst.
  - rewrite <- app_comm_cons. cbn [send_each accepts] in *.
    unfold bind, send. cbv beta. destruct (p log d); [|discriminate Hok].
    rewrite (IH st rest e (S n) _ Hok).
    + now rewrite <- app_assoc.
    + now rewrite <- app_assoc.
Qed.

Lemma importar_registros_sends (qr : QueryRunner) (tabla : string)
  (columnas : option (list string)) (registros : list JsObject) :
  forall n log,
    importar_registros qr tabla columnas registros n log
    = send_each (pool qr)
        (import_statements (db_type qr) tabla columnas registros) n log.
Proof.
  induction registros as [|registro resto IH]; intros n log; [reflexivity|].
  cbn [importar_registros import_statements map send_each].
  unfold runQueryWithParams, bind, send. unfold insert_statement at 1.
  cbv beta zeta.
  destruct (pool qr log _); [|reflexivity]. cbn [ret]. apply IH.
Qed.

Lemma insertar_registros_sends (qr : QueryRunner) (tabla : string)
  (datos : list JsObject) :
  forall n log,
    insertar_registros qr tabla datos n log
    = send_each (pool qr) (insert_statements (db_type qr) tabla datos) n log.
Proof.
  induction datos as [|registro resto IH]; intros n log; [reflexivity|].
  cbn [insertar_registros insert_statements map send_each].
  unfold runQueryWithParams, bind, send. unfold insert_statement at 1.
  cbv beta zeta.
  destruct (pool qr log _); [|reflexivity]. cbn [ret]. apply IH.
Qed.

(** C10, as the code has it.  [importarTabla] sends one single-row INSERT
    per parsed record, in order; when the database accepts them all the
    reply reports their number.  When it refuses one, the reply is an error
    envelope, the statements before it have been sent and accepted, none
    compensates them, and no later record is attempted.  [insertarDatos]
    does the same for a non-empty array of records, and answers an empty
    array with an error without sending anything. *)
Theorem bulk_insert_one_by_one
  (parse_registros :
     string -> Formato -> option (list string) -> Outcome (list JsObject))
  (qr : QueryRunner) (tabla texto : string) (formato : Formato)
  (columnas : option (list string)) (registros datos : list JsObject)
  (log : list Statement) :
  parse_registros texto formato columnas = Returned registros ->
  datos <> [] ->
  let imported := import_statements (db_type qr) tabla columnas registros in
  let inserted := insert_statements (db_type qr) tabla datos in
  (accepts (pool qr) log imported = true ->
   importarTabla parse_registros qr tabla texto formato columnas log
   = (Returned (ok_text ("Se importaron " ++ decimal (length registros)
                           ++ " registro(s) en la tabla '" ++ tabla
                           ++ "' exitosamente.")),
      (log ++ imported)%list))
  /\
  (forall done st rest e,
     imported = (done ++ st :: rest)%list ->
     accepts (pool qr) log done = true ->
     pool qr (log ++ done)%list st = Thrown e ->
     importarTabla parse_registros qr tabla texto formato columnas log
     = (Returned (error_text ("Error al importar datos: " ++ describe e)),
        (log ++ done ++ [st])%list))
  /\
  (accepts (pool qr) log inserted = true ->
   insertarDatos qr tabla datos log
   = (Returned (ok_text ("Se insertaron " ++ decimal (length datos)
                           ++ " registro(s) en la tabla '" ++ tabla
                           ++ "' exitosamente.")),
      (log ++ inserted)%list))
  /\
  (forall done st rest e,
     inserted = (done ++ st :: rest)%list ->
     accepts (pool qr) log done = true ->
     pool qr (log ++ done)%list st = Thrown e ->
     insertarDatos qr tabla datos log
     = (Returned (error_text ("Error al insertar datos: " ++ describe e)),
        (log ++ done ++ [st])%list))
  /\
  insertarDatos qr tabla [] log
  = (Returned (error_text "Debes proporcionar un array de datos para insertar."),
     log).
Proof.
  intros Hparse Hdatos imported inserted.
  assert (Hguard : (length datos =? 0)%nat = false)
    by (destruct datos; [contradiction | reflexivity]).
  repeat split.
  - intros Hok. unfold importarTabla, try_catch, bind. rewrite Hparse.
    rewrite importar_registros_sends. fold imported.
    rewrite (send_each_accepted _ _ 0 log Hok). unfold ret, imported.
    unfold import_statements. now rewrite length_map.
  - intros done st rest e Hsplit Hok Hst.
    unfold importarTabla, try_catch, bind. rewrite Hparse.
    rewrite importar_registros_sends. fold imported. rewrite Hsplit.
    now rewrite (send_each_refused _ done st rest e 0 log Hok Hst).
  - intros Hok. unfold insertarDatos, try_catch, bind. rewrite Hguard.
    rewrite insertar_registros_sends. fold inserted.
    rewrite (send_each_accepted _ _ 0 log Hok). unfold ret, inserted.
    unfold insert_statements. now rewrite length_map.
  - intros done st rest e Hsplit Hok Hst.
    unfold insertarDatos, try_catch, bind. rewrite Hguard.
    rewrite insertar_registros_sends. fold inserted. rewrite Hsplit.
    now rewrite (send_each_refused _ done st rest e 0 log Hok Hst).
Qed.

Lemma bulk_insert_one_by_one_witness :
  importarTabla (parsing_to two_records) (mysql_on (failing_at 1)) "clientes"
    "" json None []
  = (Returned (error_text "Error al importar datos: Duplicate entry"),
     [ {| sql := "INSERT INTO `clientes` (`email`) VALUES (?)";
          params := Some [VStr "a@b.com"] |};
       {| sql := "INSERT INTO `clientes` (`email`) VALUES (?)";
          params := Some [VStr "a@b.com"] |} ])
  /\
  insertarDatos (mysql_on accepting) "clientes" two_records []
  = (Returned (ok_text
                 "Se insertaron 2 registro(s) en la tabla 'clientes' exitosamente."),
     [ {| sql := "INSERT INTO `clientes` (`email`) VALUES (?)";
          params := Some [VStr "a@b.com"] |};
       {| sql := "INSERT INTO `clientes` (`email`) VALUES (?)";
          params := Some [VStr "a@b.com"] |} ]).
Proof.
  pose proof (bulk_insert_one_by_one (parsing_to two_records)
                (mysql_on (failing_at 1)) "clientes" "" json None
                two_records two_records [] eq_refl ltac:(discriminate)) as Hfail.
  pose proof (bulk_insert_one_by_one (parsing_to two_records)
                (mysql_on accepting) "clientes" "" json None
                two_records two_records [] eq_refl ltac:(discriminate)) as Hok.
  split.
  - apply (proj1 (proj2 Hfail)
             [ {| sql := "INSERT INTO `clientes` (`email`) VALUES (?)";
                  params := Some [VStr "a@b.com"] |} ]
             {| sql := "INSERT INTO `clientes` (`email`) VALUES (?)";
                params := Some [VStr "a@b.com"] |}
             []
             {| name := "Error"; message := "Duplicate entry" |});
      reflexivity.
  - apply (proj1 (proj2 (proj2 Hok))). reflexivity.
Defined.

(** C10 as stated fails for [insertarDatos] at N = 0: the empty array is
    refused by the guard of the tool, so no message reports 0 records. *)
Lemma insertarDatos_empty_array_not_counted :
  ~ (forall datos : list JsObject,
       accepts accepting [] (insert_statements "mysql" "clientes" datos) = true ->
       reply (insertarDatos (mysql_on accepting) "clientes" datos [])
       = Returned (ok_text ("Se insertaron " ++ decimal (length datos)
                              ++ " registro(s) en la tabla 'clientes' exitosamente."))).
Proof.
  intros H. specialize (H [] eq_refl). vm_compute in H. discriminate H.
Qed.

(** ** Identifier quoting and placeholder groups *)

Lemma append_inj_r (a b c : string) : a ++ b = a ++ c -> b = c.
Proof.
  induction a as [|x a IH]; simpl; intros H; [exact H|].
  injection H as H. now apply IH.
Qed.

Lemma append_inj_l (a b : string) (c : ascii) :
  a ++ String c "" = b ++ String c "" -> a = b.
Proof.
  revert b. induction a as [|x a IH]; intros [|y b] H; simpl in H.
  - reflexivity.
  - injection H as _ H. destruct b; discriminate H.
  - injection H as _ H. destruct a; discriminate H.
  - injection H as -> H. f_equal. now apply IH.
Qed.

(** X1. Quoting keeps identifiers apart and adds the two delimiters and
    nothing else: two identifiers quoted alike under one dialect are the same
    identifier, and the quoted text is two characters longer. *)
Theorem quoteIdent_faithful (db a b : string) :
  (quoteIdent db a = quoteIdent db b -> a = b)
  /\ String.length (quoteIdent db a) = String.length a + 2.
Proof.
  unfold quoteIdent. destruct (is_mysql db); split.
  - intros H. apply append_inj_r in H. now apply append_inj_l in H.
  - rewrite !append_length. simpl. lia.
  - intros H. apply append_inj_r in H. now apply append_inj_l in H.
  - rewrite !append_length. simpl. lia.
Qed.

Lemma quoteIdent_faithful_witness : "ventas" = "ventas".
Proof.
  exact (proj1 (quoteIdent_faithful "pg" "ventas" "ventas") eq_refl).
Defined.

(** On the unbounded counters, a group of [n + m] tokens at offset [k] is the
    group of [n] at [k] followed by the group of [m] at [k + n], and on the
    numbered dialect no token of a group repeats. *)
Lemma makePlaceholders_counters (db : string) (n m k : nat) :
  makePlaceholders db (n + m) k
  = (makePlaceholders db n k ++ makePlaceholders db m (k + n))%list
  /\ (is_mysql db = false -> NoDup (makePlaceholders db n k)).
Proof.
  split.
  - destruct (is_mysql db) eqn:E.
    + unfold makePlaceholders. rewrite E. apply repeat_app.
    + rewrite !(numbered_tokens _ _ _ E), seq_app, map_app.
      do 3 f_equal. lia.
  - intros E. rewrite (numbered_tokens _ _ _ E).
    apply numbered_NoDup, seq_NoDup.
Qed.

(** X2. The offset makes placeholder groups compose, as long as the array
    can be built and every number stays a safe integer: for [n + m < 2^32]
    and [k + n + m < 2^53], the group of [n + m] tokens at offset [k] is the
    group of [n] at [k] followed by the group of [m] at [k + n], with the
    lengths [n] and [m]; and on the numbered dialect no token of the whole
    group repeats. *)
Theorem makePlaceholders_groups (db : string) (n m k : N) :
  (n + m < 4294967296)%N -> (k + n + m < 9007199254740992)%N ->
  exists a b : list string,
    Js.makePlaceholders db n k = Returned a
    /\ Js.makePlaceholders db m (k + n) = Returned b
    /\ Js.makePlaceholders db (n + m) k = Returned (a ++ b)%list
    /\ length a = N.to_nat n /\ length b = N.to_nat m
    /\ (is_mysql db = false -> NoDup (a ++ b)%list).
Proof.
  intros Hn Hk.
  exists (makePlaceholders db (N.to_nat n) (N.to_nat k)),
         (makePlaceholders db (N.to_nat m) (N.to_nat (k + n))).
  destruct (makePlaceholders_counters db (N.to_nat n) (N.to_nat m) (N.to_nat k))
    as [Happ _].
  split; [apply makePlaceholders_safe; lia|].
  split; [apply makePlaceholders_safe; lia|].
  split.
  - rewrite makePlaceholders_safe by lia. f_equal.
    rewrite N2Nat.inj_add, Happ. do 2 f_equal. lia.
  - split; [apply makePlaceholders_length|].
    split; [apply makePlaceholders_length|].
    intros E. replace (N.to_nat (k + n)) with (N.to_nat k + N.to_nat n) by lia.
    rewrite <- Happ.
    exact (proj2 (makePlaceholders_counters db _ 0 (N.to_nat k)) E).
Qed.

Lemma makePlaceholders_groups_witness :
  exists a b : list string,
    Js.makePlaceholders "pg" 2 2 = Returned a
    /\ Js.makePlaceholders "pg" 1 4 = Returned b
    /\ Js.makePlaceholders "pg" 3 2 = Returned (a ++ b)%list
    /\ length a = 2 /\ length b = 1
    /\ (is_mysql "pg" = false -> NoDup (a ++ b)%list).
Proof. exact (makePlaceholders_groups "pg" 2 1 2 eq_refl eq_refl). Defined.

(** Without the bounds the groups do not stay apart: at offset [2^53 - 1]
    the two tokens of a group are the same text. *)
Lemma makePlaceholders_rounded_offset :
  Js.makePlaceholders "pg" 2 9007199254740991
  = Returned ["$9007199254740992"; "$9007199254740992"].
Proof. vm_compute. reflexivity. Qed.

(** ** The structural tools *)

Lemma word_char_quote_free (c : ascii) :
  word_char c = true ->
  negb ((c =? "`")%char || (c =? "034")%char)%bool = true.
Proof.
  destruct c as [[] [] [] [] [] [] [] []];
    intros H; (reflexivity || (cbv in H; discriminate H)).
Qed.

Lemma all_word_quote_free (s : string) :
  all_chars word_char s = true -> quote_free s = true.
Proof.
  unfold quote_free. induction s as [|c s IH]; [reflexivity|].
  cbn [all_chars]. intros H. apply andb_prop in H as [Hc Hs].
  rewrite (word_char_quote_free c Hc). now apply IH.
Qed.

Lemma test_word_quote_free (s : string) :
  test_word s = true -> quote_free s = true.
Proof.
  destruct s as [|c s]; [discriminate|]. apply all_word_quote_free.
Qed.

(** X3. [agregarColumna] sends its ALTER TABLE only for a table and a column
    name made of one or more letters, digits and underscores; any other
    name, the empty one included, is answered with the validation error and
    nothing is sent.  A name that passes holds neither a backtick nor a
    double quote, so each quoted identifier of the statement is closed by
    its own delimiter; the type text follows unchecked. *)
Theorem agregarColumna_identifiers
  (qr : QueryRunner) (tabla columna tipo : string) (log : list Statement) :
  ((test_word tabla && test_word columna)%bool = false ->
   agregarColumna qr tabla columna tipo log
   = (Returned (error_text
        "Nombre de tabla o columna no válido. Use solo letras, números y guiones bajos."),
      log))
  /\
  ((test_word tabla && test_word columna)%bool = true ->
   sent (agregarColumna qr tabla columna tipo log)
   = (log ++ [ {| sql := "ALTER TABLE " ++ quoteIdent (db_type qr) tabla
                           ++ " ADD COLUMN " ++ quoteIdent (db_type qr) columna
                           ++ " " ++ tipo;
                  params := None |} ])%list
   /\ quote_free tabla = true /\ quote_free columna = true).
Proof.
  unfold agregarColumna. split; intros H.
  - destruct (test_word tabla), (test_word columna);
      (discriminate H || reflexivity).
  - apply andb_prop in H as [Ht Hc]. rewrite Ht, Hc. cbn [negb orb].
    repeat split.
    + apply run_then_report.
    + now apply test_word_quote_free.
    + now apply test_word_quote_free.
Qed.

Lemma agregarColumna_identifiers_witness :
  agregarColumna (mysql_on accepting) "usuarios" "e`mail" "INT" []
  = (Returned (error_text
       "Nombre de tabla o columna no válido. Use solo letras, números y guiones bajos."),
     [])
  /\
  sent (agregarColumna (mysql_on accepting) "usuarios" "email_2"
          "VARCHAR(255) NOT NULL" [])
  = [ {| sql := "ALTER TABLE `usuarios` ADD COLUMN `email_2` VARCHAR(255) NOT NULL";
         params := None |} ].
Proof.
  split.
  - apply (proj1 (agregarColumna_identifiers (mysql_on accepting)
                    "usuarios" "e`mail" "INT" [])).
    reflexivity.
  - apply (proj2 (agregarColumna_identifiers (mysql_on accepting)
                    "usuarios" "email_2" "VARCHAR(255) NOT NULL" [])).
    reflexivity.
Defined.

Lemma at_most_one_plain_guarded (guard : bool) (qr : QueryRunner) (q : string)
  (refused good : Envelope) (bad : JsError -> Envelope)
  (log : list Statement) :
  at_most_one_plain log
    (sent (try_catch
             (if guard then ret refused
              else _ <- runQuery qr q ;; ret good)
             (fun e => ret (bad e)) log)).
Proof.
  destruct guard.
  - now left.
  - right. exists q. apply run_then_report.
Qed.

(** X4. The tools that change or export a structure never bind a parameter
    and never send more than one statement: whatever its arguments,
    [exportarTabla], [agregarColumna], [renombrarTabla], [renombrarColumna],
    [cambiarTipoColumna], [agregarRestriccionUnica] and [agregarClaveForanea]
    each send nothing or a single statement whose parameters are absent. *)
Theorem structural_tools_send_plain_text
  (JSON_stringify : Rows -> string) (json2csv : Rows -> Outcome string)
  (qr : QueryRunner) (log : list Statement) :
  (forall tabla formato columnas,
     at_most_one_plain log
       (sent (exportarTabla JSON_stringify json2csv qr tabla formato columnas log)))
  /\ (forall tabla columna tipo,
        at_most_one_plain log (sent (agregarColumna qr tabla columna tipo log)))
  /\ (forall nombreActual nuevoNombre,
        at_most_one_plain log
          (sent (renombrarTabla qr nombreActual nuevoNombre log)))
  /\ (forall tabla columnaActual nuevoNombre tipo,
        at_most_one_plain log
          (sent (renombrarColumna qr tabla columnaActual nuevoNombre tipo log)))
  /\ (forall tabla columna nuevoTipo,
        at_most_one_plain log
          (sent (cambiarTipoColumna qr tabla columna nuevoTipo log)))
  /\ (forall tabla columnas nombre,
        at_most_one_plain log
          (sent (agregarRestriccionUnica qr tabla columnas nombre log)))
  /\ (forall tabla columnas tablaReferencia columnasReferencia
             nombre onDelete onUpdate,
        at_most_one_plain log
          (sent (agregarClaveForanea qr tabla columnas tablaReferencia
                   columnasReferencia nombre onDelete onUpdate log))).
Proof.
  repeat split; intros.
  - right. eexists.
    pose proof (runQuery_sent qr
                  (("SELECT "
                      ++ match columnas with
                         | Some (c :: cs) =>
                             join ", " (map (fun col => quoteIdent (db_type qr) col)
                                          (c :: cs))
                         | _ => "*"
                         end) ++ " FROM " ++ quoteIdent (db_type qr) tabla) log)
      as H.
    unfold exportarTabla, try_catch, bind, sent in *. cbv zeta.
    replace (match columnas with
             | Some (c :: cs) =>
                 "SELECT " ++ join ", " (map (fun col => quoteIdent (db_type qr) col)
                                           (c :: cs))
             | _ => "SELECT " ++ "*"
             end)
      with ("SELECT "
              ++ match columnas with
                 | Some (c :: cs) =>
                     join ", " (map (fun col => quoteIdent (db_type qr) col)
                                  (c :: cs))
                 | _ => "*"
                 end)
      by (destruct columnas as [[|c cs]|]; reflexivity).
    destruct (runQuery qr _ log) as [[result|e] log']; cbn [snd] in *.
    + destruct formato; cbn [ret snd].
      * destruct (json2csv (result_rows result)); exact H.
      * exact H.
    + exact H.
  - apply at_most_one_plain_guarded.
  - apply at_most_one_plain_guarded.
  - apply at_most_one_plain_guarded.
  - apply at_most_one_plain_guarded.
  - apply at_most_one_plain_guarded.
  - apply at_most_one_plain_guarded.
Qed.

(** X5. On PostgreSQL the type given to [renombrarColumna] has no part in
    the statement: two runs that differ only in a non-empty type are the
    same run, statement and reply.  The type is demanded all the same: with an empty
    one the tool answers with the validation error and sends nothing. *)
Theorem renombrarColumna_type_unused
  (qr : QueryRunner) (tabla columnaActual nuevoNombre tipo tipo' : string)
  (log : list Statement) :
  is_mysql (db_type qr) = false ->
  tipo <> "" -> tipo' <> "" ->
  renombrarColumna qr tabla columnaActual nuevoNombre tipo log
  = renombrarColumna qr tabla columnaActual nuevoNombre tipo' log
  /\ renombrarColumna qr tabla columnaActual nuevoNombre "" log
     = (Returned (error_text
          "Debes proporcionar la tabla, columna actual, nuevo nombre y tipo."),
        log).
Proof.
  intros Hpg Ht Ht'. unfold renombrarColumna. rewrite Hpg.
  rewrite (not_empty_eqb _ Ht), (not_empty_eqb _ Ht'). split; [reflexivity|].
  now rewrite !orb_true_r.
Qed.

Lemma renombrarColumna_type_unused_witness :
  renombrarColumna (pg_on accepting) "empleados" "nombre" "nombre_completo"
    "VARCHAR(255)" []
  = renombrarColumna (pg_on accepting) "empleados" "nombre" "nombre_completo"
      "INT" [].
Proof.
  exact (proj1 (renombrarColumna_type_unused (pg_on accepting) "empleados"
                  "nombre" "nombre_completo" "VARCHAR(255)" "INT" []
                  eq_refl ltac:(discriminate) ltac:(discriminate))).
Defined.

(** X6. An empty list of columns is refused by [agregarRestriccionUnica],
    which sends nothing, but not by [agregarClaveForanea]: for named tables
    it sends a FOREIGN KEY constraint over no column at all. *)
Theorem empty_column_lists
  (qr : QueryRunner) (tabla tablaReferencia : string)
  (nombre : option string) (log : list Statement) :
  tabla <> "" -> tablaReferencia <> "" ->
  agregarRestriccionUnica qr tabla [] nombre log
  = (Returned (error_text "Debes proporcionar la tabla y al menos una columna."),
     log)
  /\
  sent (agregarClaveForanea qr tabla [] tablaReferencia [] None None None log)
  = (log ++ [ {| sql := "ALTER TABLE " ++ quoteIdent (db_type qr) tabla
                          ++ " ADD FOREIGN KEY () REFERENCES "
                          ++ quoteIdent (db_type qr) tablaReferencia ++ " ()";
                 params := None |} ])%list.
Proof.
  intros Ht Hr. split.
  - unfold agregarRestriccionUnica. cbn [length Nat.eqb].
    now rewrite orb_true_r.
  - unfold agregarClaveForanea.
    rewrite (not_empty_eqb _ Ht), (not_empty_eqb _ Hr). cbn [orb given].
    cbv zeta. apply run_then_report.
Qed.

Lemma empty_column_lists_witness :
  sent (agregarClaveForanea (mysql_on accepting) "ventas" [] "clientes" []
          None None None [])
  = [ {| sql := "ALTER TABLE `ventas` ADD FOREIGN KEY () REFERENCES `clientes` ()";
         params := None |} ].
Proof.
  exact (proj2 (empty_column_lists (mysql_on accepting) "ventas" "clientes"
                  None [] ltac:(discriminate) ltac:(discriminate))).
Defined.

(** ** Errors at the boundary *)

Lemma try_catch_answers (body : M Envelope) (bad : JsError -> Envelope)
  (log : list Statement) :
  answers (try_catch body (fun e => ret (bad e)) log).
Proof.
  unfold answers, try_catch, reply.
  destruct (body log) as [[env|e] log']; eexists; reflexivity.
Qed.

(** X7. Every tool whose body is a [try] with a [catch] returns an envelope,
    for all arguments and whatever the database, the text parser or the CSV
    writer do: no error of theirs leaves the tool as an exception. *)
Theorem tools_answer_with_an_envelope
  (JSON_stringify : Rows -> string) (json2csv : Rows -> Outcome string)
  (parse_registros :
     string -> Formato -> option (list string) -> Outcome (list JsObject))
  (qr : QueryRunner) (log : list Statement) :
  (forall tabla, answers (columnasDeTabla qr tabla log))
  /\ (forall consulta, answers (consultarSQL qr consulta log))
  /\ (forall tabla formato columnas,
        answers (exportarTabla JSON_stringify json2csv qr tabla formato
                   columnas log))
  /\ (forall tabla datos formato columnas,
        answers (importarTabla parse_registros qr tabla datos formato
                   columnas log))
  /\ (forall nombreTabla columnas, answers (crearTabla qr nombreTabla columnas log))
  /\ (forall tabla columna tipo, answers (agregarColumna qr tabla columna tipo log))
  /\ (forall tabla datos, answers (insertarDatos qr tabla datos log))
  /\ (forall tabla accion datos filtro,
        answers (crudTabla JSON_stringify qr tabla accion datos filtro log))
  /\ (forall nombreActual nuevoNombre,
        answers (renombrarTabla qr nombreActual nuevoNombre log))
  /\ (forall tabla columnaActual nuevoNombre tipo,
        answers (renombrarColumna qr tabla columnaActual nuevoNombre tipo log))
  /\ (forall tabla columna nuevoTipo,
        answers (cambiarTipoColumna qr tabla columna nuevoTipo log))
  /\ (forall nombreTabla, answers (eliminarTabla qr nombreTabla log))
  /\ (forall tabla columna, answers (eliminarColumna qr tabla columna log))
  /\ (forall tabla nombre, answers (eliminarRestriccionUnica qr tabla nombre log))
  /\ (forall tabla nombre, answers (eliminarClaveForanea qr tabla nombre log))
  /\ (forall tabla columnas nombre,
        answers (agregarRestriccionUnica qr tabla columnas nombre log))
  /\ (forall tabla columnas tablaReferencia columnasReferencia
             nombre onDelete onUpdate,
        answers (agregarClaveForanea qr tabla columnas tablaReferencia
                   columnasReferencia nombre onDelete onUpdate log)).
Proof.
  repeat split; intros; apply try_catch_answers.
Qed.

(** ** The schema *)

Lemma map_async_sent {A B} (p : Driver) (stmt : A -> Statement)
  (k : A -> DriverResult -> Outcome B) (l : list A) :
  forall log, snd (map_async p stmt k l log) = (log ++ map stmt l)%list.
Proof.
  induction l as [|x l IH]; intros log; cbn [map_async map].
  - now rewrite app_nil_r.
  - specialize (IH (log ++ [stmt x])%list).
    destruct (map_async p stmt k l (log ++ [stmt x])%list) as [outs log'].
    cbn [snd] in *. rewrite IH. now rewrite <- app_assoc.
Qed.

Lemma map_async_all_arrays {A B C V} (p : Driver) (stmt : A -> Statement)
  (what : string) (f : JsObject -> C) (g : A -> list C -> B) (h : B -> V)
  (nm : A -> V) (l : list A) :
  (forall x cols, h (g x cols) = nm x) ->
  forall log,
    all_arrays p log (map stmt l) = true ->
    let outs :=
      fst (map_async p stmt
             (fun x r =>
                match array_map what f (rows r) with
                | Returned cols => Returned (g x cols)
                | Thrown e => Thrown e
                end) l log) in
    rejections outs = [] /\ map h (fulfilled outs) = map nm l.
Proof.
  intros Hh. induction l as [|x l IH]; intros log Hall; cbn [map_async map].
  - split; reflexivity.
  - cbn [map all_arrays] in Hall.
    destruct (p log (stmt x)) as [[[cols| |] flds]|e]; try discriminate Hall.
    specialize (IH _ Hall). cbv zeta in IH.
    destruct (map_async p stmt _ l (log ++ [stmt x])%list) as [outs log'].
    cbn [fst rows array_map rejections fulfilled map] in *.
    destruct IH as [Hrej Hful]. split; [exact Hrej|].
    now rewrite Hh, Hful.
Qed.

(** X8. [listarTablas] has no [catch]: when the pool refuses the first
    statement of [getSchema], the error leaves the tool as an exception, no
    envelope is returned and no further statement is sent. *)
Theorem listarTablas_throws
  (settles_first : list JsError -> nat) (qr : QueryRunner)
  (log : list Statement) (e : JsError) :
  pool qr log (tables_query qr) = Thrown e ->
  listarTablas settles_first qr log
  = (Thrown e, (log ++ [tables_query qr])%list).
Proof.
  unfold listarTablas, getSchema, tables_query, bind, send.
  destruct (is_mysql (db_type qr)); intros H; now rewrite H.
Qed.

Lemma listarTablas_throws_witness :
  listarTablas (fun _ => 0) (mysql_on no_such_table) []
  = (Thrown {| name := "Error"; message := "Table 'db.t' doesn't exist" |},
     [ {| sql := "SHOW TABLES"; params := None |} ]).
Proof.
  exact (listarTablas_throws (fun _ => 0) (mysql_on no_such_table) []
           {| name := "Error"; message := "Table 'db.t' doesn't exist" |}
           eq_refl).
Defined.

(** X9. [getSchema] sends one statement for the list of tables and then one
    per row of that list, in the order of the list and whatever the answers
    to them are.  When each of them is answered with an array of rows, and on
    MySQL the list is not empty, it returns one entry per row, in that order,
    named after the row. *)
Theorem getSchema_one_query_per_table
  (settles_first : list JsError -> nat) (qr : QueryRunner)
  (log : list Statement) (res : DriverResult) (tables : list JsObject) :
  pool qr log (tables_query qr) = Returned res ->
  rows res = RArray tables ->
  let per_table := map (columns_query_of qr tables) tables in
  sent (getSchema settles_first qr log)
  = (log ++ tables_query qr :: per_table)%list
  /\
  (all_arrays (pool qr) (log ++ [tables_query qr]) per_table = true ->
   (is_mysql (db_type qr) = true -> tables <> []) ->
   exists schema,
     reply (getSchema settles_first qr log) = Returned schema
     /\ map tbl_name schema = map (table_name_of qr tables) tables).
Proof.
  intros Hq Hrows per_table. subst per_table.
  unfold getSchema, tables_query, columns_query_of, table_name_of, bind, send,
    sent, reply in *.
  destruct (is_mysql (db_type qr)); rewrite Hq, Hrows.
  - destruct tables as [|first rest].
    + split; [reflexivity|]. intros _ Hne. now destruct (Hne eq_refl).
    + cbn [hd]. split.
      * pose proof (map_async_sent (pool qr)
                      (mysql_columns_of (nth 0 (keys first) "undefined"))
                      (fun tbl r =>
                         match array_map "cols"
                                 (fun c => {| col_name := get c "Field";
                                              col_type := get c "Type" |})
                                 (rows r) with
                         | Returned cols =>
                             Returned {| tbl_name :=
                                           get tbl (nth 0 (keys first) "undefined");
                                         tbl_columns := cols |}
                         | Thrown e => Thrown e
                         end)
                      (first :: rest)
                      (log ++ [ {| sql := "SHOW TABLES"; params := None |} ])%list)
          as Hs.
        destruct (map_async _ _ _ (first :: rest) _) as [outs log'].
        cbn [snd] in *. rewrite Hs. now rewrite <- app_assoc.
      * intros Hall _.
        pose proof (map_async_all_arrays (pool qr)
                      (mysql_columns_of (nth 0 (keys first) "undefined"))
                      "cols"
                      (fun c => {| col_name := get c "Field";
                                   col_type := get c "Type" |})
                      (fun tbl cols =>
                         {| tbl_name := get tbl (nth 0 (keys first) "undefined");
                            tbl_columns := cols |})
                      tbl_name
                      (fun tbl => get tbl (nth 0 (keys first) "undefined"))
                      (first :: rest) (fun _ _ => eq_refl) _ Hall) as Ha.
        cbv zeta in Ha.
        destruct (map_async _ _ _ (first :: rest) _) as [outs log'].
        cbn [fst] in *. destruct Ha as [Hrej Hful].
        exists (fulfilled outs). unfold Promise_all. rewrite Hrej.
        split; [reflexivity | exact Hful].
  - split.
    + pose proof (map_async_sent (pool qr) pg_columns_of
                    (fun row r =>
                       match array_map "res2.rows"
                               (fun c => {| col_name := get c "column_name";
                                            col_type := get c "data_type" |})
                               (rows r) with
                       | Returned cols =>
                           Returned {| tbl_name := get row "table_name";
                                       tbl_columns := cols |}
                       | Thrown e => Thrown e
                       end)
                    tables
                    (log ++ [ {| sql := pg_tables_query; params := None |} ])%list)
        as Hs.
      destruct (map_async _ _ _ tables _) as [outs log'].
      cbn [snd] in *. rewrite Hs. now rewrite <- app_assoc.
    + intros Hall _.
      pose proof (map_async_all_arrays (pool qr) pg_columns_of
                    "res2.rows"
                    (fun c => {| col_name := get c "column_name";
                                 col_type := get c "data_type" |})
                    (fun row cols =>
                       {| tbl_name := get row "table_name"; tbl_columns := cols |})
                    tbl_name (fun row => get row "table_name")
                    tables (fun _ _ => eq_refl) _ Hall) as Ha.
      cbv zeta in Ha.
      destruct (map_async _ _ _ tables _) as [outs log'].
      cbn [fst] in *. destruct Ha as [Hrej Hful].
      exists (fulfilled outs). unfold Promise_all. rewrite Hrej.
      split; [reflexivity | exact Hful].
Qed.

Lemma getSchema_one_query_per_table_witness :
  sent (getSchema (fun _ => 0)
          (mysql_on (listing [ [("Tables_in_tienda", VStr "clientes")];
                               [("Tables_in_tienda", VStr "ventas")] ])) [])
  = [ {| sql := "SHOW TABLES"; params := None |};
      {| sql := "SHOW COLUMNS FROM `clientes`"; params := None |};
      {| sql := "SHOW COLUMNS FROM `ventas`"; params := None |} ]
  /\
  exists schema,
    reply (getSchema (fun _ => 0)
             (mysql_on (listing [ [("Tables_in_tienda", VStr "clientes")];
                                  [("Tables_in_tienda", VStr "ventas")] ])) [])
    = Returned schema
    /\ map tbl_name schema = [VStr "clientes"; VStr "ventas"].
Proof.
  pose proof (getSchema_one_query_per_table (fun _ => 0)
                (mysql_on (listing [ [("Tables_in_tienda", VStr "clientes")];
                                     [("Tables_in_tienda", VStr "ventas")] ]))
                [] _ _ eq_refl eq_refl) as [Hsent Hreply].
  split.
  - exact Hsent.
  - apply Hreply; [reflexivity | discriminate].
Defined.

(** X10. A database without tables: on MySQL [getSchema] reads the first row
    of an empty list and throws a [TypeError], which [listarTablas] lets
    through; on PostgreSQL [listarTablas] answers with the bare heading.
    Either way only the statement for the list of tables was sent. *)
Theorem listarTablas_without_tables
  (settles_first : list JsError -> nat) (qr : QueryRunner)
  (log : list Statement) (res : DriverResult) :
  pool qr log (tables_query qr) = Returned res ->
  rows res = RArray [] ->
  sent (listarTablas settles_first qr log) = (log ++ [tables_query qr])%list
  /\
  if is_mysql (db_type qr) then
    exists e,
      reply (listarTablas settles_first qr log) = Thrown e
      /\ name e = "TypeError"
  else
    reply (listarTablas settles_first qr log)
    = Returned (ok_text ("Tablas:" ++ nl)).
Proof.
  intros Hq Hrows.
  unfold listarTablas, getSchema, tables_query, bind, send, sent, reply in *.
  destruct (is_mysql (db_type qr)); rewrite Hq, Hrows; cbn.
  - split; [reflexivity|]. eexists. split; reflexivity.
  - split; reflexivity.
Qed.

Lemma listarTablas_without_tables_witness :
  (exists e,
     reply (listarTablas (fun _ => 0) (mysql_on accepting) []) = Thrown e
     /\ name e = "TypeError")
  /\
  reply (listarTablas (fun _ => 0) (pg_on accepting) [])
  = Returned (ok_text ("Tablas:" ++ nl)).
Proof.
  split.
  - exact (proj2 (listarTablas_without_tables (fun _ => 0) (mysql_on accepting)
                    [] _ eq_refl eq_refl)).
  - exact (proj2 (listarTablas_without_tables (fun _ => 0) (pg_on accepting)
                    [] _ eq_refl eq_refl)).
Defined.

(** ** Export *)

Lemma exportarTabla_run
  (JSON_stringify : Rows -> string) (json2csv : Rows -> Outcome string)
  (qr : QueryRunner) (tabla : string) (formato : Formato)
  (columnas : option (list string)) (log : list Statement) :
  exportarTabla JSON_stringify json2csv qr tabla formato columnas log
  = match runQuery qr (sql (export_statement (db_type qr) tabla columnas)) log with
    | (Returned result, log') =>
        match formato with
        | json => (Returned (ok_text (JSON_stringify (result_rows result))), log')
        | csv =>
            match json2csv (result_rows result) with
            | Returned t => (Returned (ok_text t), log')
            | Thrown e =>
                (Returned (error_text ("Error al exportar tabla: " ++ describe e)),
                 log')
            end
        end
    | (Thrown e, log') =>
        (Returned (error_text ("Error al exportar tabla: " ++ describe e)), log')
    end.
Proof.
  unfold exportarTabla, export_statement, try_catch, bind. cbv zeta. cbn [sql].
  replace (match columnas with
           | Some (c :: cs) =>
               "SELECT " ++ join ", " (map (fun col => quoteIdent (db_type qr) col)
                                         (c :: cs))
           | _ => "SELECT " ++ "*"
           end)
    with ("SELECT "
            ++ match columnas with
               | Some (c :: cs) => join ", " (map (quoteIdent (db_type qr)) (c :: cs))
               | _ => "*"
               end)
    by (destruct columnas as [[|c cs]|]; reflexivity).
  destruct (runQuery qr _ log) as [[result|e] log']; [|reflexivity].
  destruct formato; cbn [ret]; [|reflexivity].
  destruct (json2csv (result_rows result)); reflexivity.
Qed.

(** X11. [exportarTabla] checks nothing and always queries: for every table
    name, the empty one included, it sends one SELECT, of all columns when
    the column list is absent or empty, the same for both formats.  An error
    of the database and, for CSV, an error of the CSV writer after the
    SELECT has run both come back as the export error envelope. *)
Theorem exportarTabla_always_queries
  (JSON_stringify : Rows -> string) (json2csv : Rows -> Outcome string)
  (qr : QueryRunner) (tabla : string) (formato : Formato)
  (columnas : option (list string)) (log : list Statement) :
  let q := export_statement (db_type qr) tabla columnas in
  sent (exportarTabla JSON_stringify json2csv qr tabla formato columnas log)
  = (log ++ [q])%list
  /\ export_statement (db_type qr) tabla (Some [])
     = export_statement (db_type qr) tabla None
  /\ (forall e,
        pool qr log q = Thrown e ->
        reply (exportarTabla JSON_stringify json2csv qr tabla formato columnas log)
        = Returned (error_text ("Error al exportar tabla: " ++ describe e)))
  /\ (forall result e,
        reply (runQuery qr (sql q) log) = Returned result ->
        json2csv (result_rows result) = Thrown e ->
        reply (exportarTabla JSON_stringify json2csv qr tabla csv columnas log)
        = Returned (error_text ("Error al exportar tabla: " ++ describe e))).
Proof.
  intros q.
  pose proof (runQuery_sent qr (sql q) log) as Hsent.
  pose proof (runQuery_result qr (sql q) log) as Hres.
  change {| sql := sql q; params := None |} with q in Hsent, Hres.
  repeat split.
  - rewrite exportarTabla_run. fold q. unfold sent in *.
    destruct (runQuery qr (sql q) log) as [[result|e] log']; cbn [snd] in *.
    + destruct formato; [destruct (json2csv _)|]; exact Hsent.
    + exact Hsent.
  - intros e He. rewrite exportarTabla_run. fold q. rewrite He in Hres.
    unfold reply in *.
    destruct (runQuery qr (sql q) log) as [[result|e'] log']; cbn [fst] in *.
    + discriminate Hres.
    + now injection Hres as ->.
  - intros result e Hr Hcsv. rewrite exportarTabla_run. fold q.
    unfold reply in *.
    destruct (runQuery qr (sql q) log) as [[result'|e'] log']; cbn [fst] in *.
    + injection Hr as ->. now rewrite Hcsv.
    + discriminate Hr.
Qed.

Lemma exportarTabla_always_queries_witness :
  reply (exportarTabla (fun _ => "[]") refusing_csv (pg_on no_such_table)
           "clientes" json None [])
  = Returned (error_text "Error al exportar tabla: Table 'db.t' doesn't exist")
  /\
  reply (exportarTabla (fun _ => "[]") refusing_csv (mysql_on accepting)
           "clientes" csv None [])
  = Returned (error_text
      "Error al exportar tabla: Data should not be empty or the fields option should be included").
Proof.
  split.
  - apply (proj1 (proj2 (proj2 (exportarTabla_always_queries (fun _ => "[]")
                                  refusing_csv (pg_on no_such_table)
                                  "clientes" json None [])))
             {| name := "Error"; message := "Table 'db.t' doesn't exist" |}).
    reflexivity.
  - apply (proj2 (proj2 (proj2 (exportarTabla_always_queries (fun _ => "[]")
                                  refusing_csv (mysql_on accepting)
                                  "clientes" csv None [])))
             {| columns := []; result_rows := RArray [] |}
             {| name := "Error";
                message := "Data should not be empty or the fields option should be included" |}).
    + reflexivity.
    + reflexivity.
Defined.

(** ** The ways to insert *)

Lemma get_absent (o : JsObject) (k : string) :
  ~ In k (keys o) -> get o k = VUndefined.
Proof.
  induction o as [|[k' v] o IH]; intros Hk; [reflexivity|].
  cbn [get]. destruct (k' =? k)%string eqn:E.
  - apply String.eqb_eq in E. subst k'. exfalso. apply Hk. now left.
  - apply IH. intros Hin. apply Hk. now right.
Qed.

(** Reading an object under each of its keys gives its values, as long as
    no key occurs twice. *)
Lemma get_each_key (o : JsObject) :
  NoDup (keys o) -> map (fun c => get o c) (keys o) = values o.
Proof.
  unfold keys, values.
  induction o as [|[k v] o IH]; intros Hnd; [reflexivity|].
  cbn [map fst snd get] in *. inversion Hnd as [|k0 l Hk Hnd']; subst.
  rewrite String.eqb_refl. f_equal.
  rewrite <- (IH Hnd'). apply map_ext_in. intros c Hc.
  destruct (k =? c)%string eqn:E; [|reflexivity].
  apply String.eqb_eq in E. subst c. contradiction.
Qed.

Lemma send_each_one (p : Driver) (st : Statement) (n : nat)
  (log : list Statement) :
  sent (send_each p [st] n log) = (log ++ [st])%list.
Proof.
  cbn [send_each]. unfold bind, send, sent. cbv beta.
  destruct (p log st); reflexivity.
Qed.

Lemma sent_try_catch_ret {A B} (body : M A) (good : A -> B) (bad : JsError -> B)
  (log : list Statement) :
  sent (try_catch (x <- body ;; ret (good x)) (fun e => ret (bad e)) log)
  = sent (body log).
Proof.
  unfold try_catch, bind, sent. destruct (body log) as [[a|e] log']; reflexivity.
Qed.

(** X12. The three ways to insert one record build the same statement: for
    a named table and a record whose keys are distinct, the create of
    [crudTabla], [insertarDatos] of the one-record array and [importarTabla]
    of a text parsed to that record, without a column list, each send the
    INSERT of the record's keys bound to its values, and nothing else. *)
Theorem insert_paths_agree
  (JSON_stringify : Rows -> string)
  (parse_registros :
     string -> Formato -> option (list string) -> Outcome (list JsObject))
  (qr : QueryRunner) (tabla texto : string) (formato : Formato)
  (registro : JsObject) (filtro : option JsObject) (log : list Statement) :
  tabla <> "" ->
  NoDup (keys registro) ->
  parse_registros texto formato None = Returned [registro] ->
  let st := insert_statement (db_type qr) tabla (keys registro) (values registro) in
  sent (crudTabla JSON_stringify qr tabla create (Some registro) filtro log)
  = (log ++ [st])%list
  /\ sent (insertarDatos qr tabla [registro] log) = (log ++ [st])%list
  /\ sent (importarTabla parse_registros qr tabla texto formato None log)
     = (log ++ [st])%list.
Proof.
  intros Htabla Hnd Hparse st. repeat split.
  - pose proof (runQueryWithParams_sent qr (sql st) (values registro) log) as H.
    unfold crudTabla, try_catch, bind, sent in *.
    rewrite (not_empty_eqb _ Htabla). cbn [Object_keys Object_values ret].
    unfold st, insert_statement in *. cbn [sql] in H.
    destruct (runQueryWithParams qr _ (values registro) log) as [[r|e] log'];
      exact H.
  - unfold insertarDatos. cbn [length Nat.eqb].
    rewrite sent_try_catch_ret, insertar_registros_sends.
    apply send_each_one.
  - unfold importarTabla, try_catch, bind, sent. rewrite Hparse.
    rewrite importar_registros_sends.
    pose proof (send_each_one (pool qr) st 0 log) as H.
    unfold import_statements, columnas_o_claves. cbn [map].
    rewrite (get_each_key _ Hnd). fold st. unfold sent in H.
    destruct (send_each (pool qr) [st] 0 log) as [[n|e] log']; exact H.
Qed.

Lemma insert_paths_agree_witness :
  sent (crudTabla (fun _ => "[]") (pg_on accepting) "clientes" create
          (Some [("nombre", VStr "Juan"); ("edad", VNum 30)]) None [])
  = sent (insertarDatos (pg_on accepting) "clientes"
            [ [("nombre", VStr "Juan"); ("edad", VNum 30)] ] []).
Proof.
  pose proof (insert_paths_agree (fun _ => "[]")
                (parsing_to [ [("nombre", VStr "Juan"); ("edad", VNum 30)] ])
                (pg_on accepting) "clientes" "" json
                [("nombre", VStr "Juan"); ("edad", VNum 30)] None []
                ltac:(discriminate)
                ltac:(repeat constructor; simpl; intuition discriminate)
                eq_refl) as [Hcrud [Hins _]].
  exact (eq_trans Hcrud (eq_sym Hins)).
Defined.

(** X13. With a list of columns none of which names a member that every
    object inherits from [Object.prototype], [importarTabla] reads a record
    under these columns only: two parsed sequences that agree under the
    listed columns give the same run, whatever other keys the records carry;
    and a record that has none of the listed columns is inserted with
    [undefined] bound to every placeholder.  (Under an inherited name such as
    [constructor] a record without that key gives the inherited member, which
    [get] does not describe.) *)
Theorem importarTabla_listed_columns
  (parse parse' :
     string -> Formato -> option (list string) -> Outcome (list JsObject))
  (qr : QueryRunner) (tabla texto texto' : string) (formato formato' : Formato)
  (c : string) (cs : list string) (registros registros' : list JsObject)
  (registro : JsObject) (log : list Statement) :
  let columnas := Some (c :: cs) in
  (forall k, In k (c :: cs) -> ~ In k Object_prototype_keys) ->
  (parse texto formato columnas = Returned registros ->
   parse' texto' formato' columnas = Returned registros' ->
   map (fun r => map (fun k => get r k) (c :: cs)) registros
   = map (fun r => map (fun k => get r k) (c :: cs)) registros' ->
   importarTabla parse qr tabla texto formato columnas log
   = importarTabla parse' qr tabla texto' formato' columnas log)
  /\
  (parse texto formato columnas = Returned [registro] ->
   (forall k, In k (c :: cs) -> ~ In k (keys registro)) ->
   sent (importarTabla parse qr tabla texto formato columnas log)
   = (log ++ [ insert_statement (db_type qr) tabla (c :: cs)
                 (repeat VUndefined (length (c :: cs))) ])%list).
Proof.
  intros columnas _. split.
  - intros Hp Hp' Hsame. unfold importarTabla, try_catch, bind.
    rewrite Hp, Hp'. rewrite !importar_registros_sends.
    unfold import_statements, columnas, columnas_o_claves.
    cbv zeta.
    rewrite <- (map_map (fun r => map (fun k => get r k) (c :: cs))
                  (insert_statement (db_type qr) tabla (c :: cs)) registros).
    rewrite <- (map_map (fun r => map (fun k => get r k) (c :: cs))
                  (insert_statement (db_type qr) tabla (c :: cs)) registros').
    now rewrite Hsame.
  - intros Hp Hnone. unfold importarTabla, try_catch, bind, sent.
    rewrite Hp. rewrite importar_registros_sends.
    unfold import_statements, columnas, columnas_o_claves. cbn [map].
    assert (Hundef : forall l : list string,
               (forall k, In k l -> ~ In k (keys registro)) ->
               map (fun k => get registro k) l = repeat VUndefined (length l)).
    { induction l as [|k l IH]; intros Hl; [reflexivity|].
      cbn [map length repeat]. rewrite get_absent by (apply Hl; now left).
      f_equal. apply IH. intros k' Hk'. apply Hl. now right. }
    pose proof (Hundef (c :: cs) Hnone) as Hu. cbn [map] in Hu. rewrite Hu.
    pose proof (send_each_one (pool qr)
                  (insert_statement (db_type qr) tabla (c :: cs)
                     (repeat VUndefined (length (c :: cs)))) 0 log) as H.
    unfold sent in H.
    destruct (send_each (pool qr) _ 0 log) as [[n|e] log']; exact H.
Qed.

Lemma importarTabla_listed_columns_witness :
  importarTabla (parsing_to [ [("email", VStr "a@b.com"); ("edad", VNum 30)] ])
    (mysql_on accepting) "clientes" "" csv (Some ["email"]) []
  = importarTabla (parsing_to [ [("email", VStr "a@b.com")] ])
      (mysql_on accepting) "clientes" "" json (Some ["email"]) []
  /\
  sent (importarTabla (parsing_to [ [("edad", VNum 30)] ])
          (mysql_on accepting) "clientes" "" json (Some ["email"]) [])
  = [ {| sql := "INSERT INTO `clientes` (`email`) VALUES (?)";
         params := Some [VUndefined] |} ].
Proof.
  assert (Hown : forall k, In k ["email"] -> ~ In k Object_prototype_keys).
  { intros k [<-|[]] Hin. cbn in Hin.
    repeat (destruct Hin as [Hin|Hin]; [discriminate Hin|]). exact Hin. }
  split.
  - apply (proj1 (importarTabla_listed_columns
                    (parsing_to [ [("email", VStr "a@b.com"); ("edad", VNum 30)] ])
                    (parsing_to [ [("email", VStr "a@b.com")] ])
                    (mysql_on accepting) "clientes" "" "" csv json "email" []
                    [ [("email", VStr "a@b.com"); ("edad", VNum 30)] ]
                    [ [("email", VStr "a@b.com")] ] [] [] Hown));
      reflexivity.
  - apply (proj2 (importarTabla_listed_columns
                    (parsing_to [ [("edad", VNum 30)] ])
                    (parsing_to [ [("edad", VNum 30)] ])
                    (mysql_on accepting) "clientes" "" "" json json "email" []
                    [] [] [("edad", VNum 30)] [] Hown)).
    + reflexivity.
    + intros k [<-|[]] [E|[]]; discriminate E.
Defined.

(** ** What crudTabla reads and reports *)

(** X14. A read of a named table with a non-empty filter sends one SELECT
    whose WHERE clause takes one token per filter key, from offset 0, bound
    to the filter values in key order; the data argument plays no part. *)
Theorem crudTabla_read_filter
  (JSON_stringify : Rows -> string) (qr : QueryRunner) (tabla : string)
  (datos : option JsObject) (filtro : JsObject) (log : list Statement) :
  tabla <> "" -> filtro <> [] ->
  let db := db_type qr in
  sent (crudTabla JSON_stringify qr tabla read datos (Some filtro) log)
  = (log ++
       [ {| sql := "SELECT * FROM " ++ quoteIdent db tabla ++ " WHERE "
                     ++ join " AND "
                          (assignments db (keys filtro)
                             (makePlaceholders db (length filtro) 0));
            params := Some (values filtro) |} ])%list.
Proof.
  intros Htabla Hfiltro db. destruct filtro as [|c f]; [contradiction|].
  pose proof (runQueryWithParams_sent qr
                ("SELECT * FROM " ++ quoteIdent db tabla ++ " "
                   ++ "WHERE " ++ join " AND " (condiciones qr 0 (keys (c :: f))))
                (values (c :: f)) log) as H.
  rewrite condiciones_assignments, keys_length in H.
  unfold crudTabla, try_catch, bind, sent in *.
  rewrite (not_empty_eqb _ Htabla). cbn [ret].
  rewrite condiciones_assignments, keys_length. subst db.
  replace (" WHERE " ++ join " AND "
             (assignments (db_type qr) (keys (c :: f))
                (makePlaceholders (db_type qr) (length (c :: f)) 0)))
    with (" " ++ "WHERE " ++ join " AND "
            (assignments (db_type qr) (keys (c :: f))
               (makePlaceholders (db_type qr) (length (c :: f)) 0)))
    by reflexivity.
  destruct (runQueryWithParams qr _ (values (c :: f)) log) as [[r|e] log'];
    exact H.
Qed.

Lemma crudTabla_read_filter_witness :
  sent (crudTabla (fun _ => "[]") (pg_on accepting) "clientes" read None
          (Some [("ciudad", VStr "Lima"); ("activo", VBool true)]) [])
  = [ {| sql := "SELECT * FROM " ++ dquote ++ "clientes" ++ dquote ++ " WHERE "
                  ++ dquote ++ "ciudad" ++ dquote ++ " = $1 AND "
                  ++ dquote ++ "activo" ++ dquote ++ " = $2";
         params := Some [VStr "Lima"; VBool true] |} ].
Proof.
  exact (crudTabla_read_filter (fun _ => "[]") (pg_on accepting) "clientes" None
           [("ciudad", VStr "Lima"); ("activo", VBool true)] []
           ltac:(discriminate) ltac:(discriminate)).
Defined.

Lemma values_count (o : JsObject) : length (values o) = length o.
Proof. apply length_map. Qed.

(** X15. What an accepted update or delete reports: the number of affected
    rows when the driver's answer carries one (the header of mysql2), and
    otherwise, as with the row array of pg, the advice "verifica la tabla."
    in its place, never a count. *)
Theorem crudTabla_reports_affected_rows
  (JSON_stringify : Rows -> string) (qr : QueryRunner) (tabla : string)
  (datos filtro : JsObject) (ignored : option JsObject)
  (log : list Statement) (res : DriverResult) :
  tabla <> "" -> filtro <> [] ->
  let db := db_type qr in
  let count :=
    match rows res with
    | RHeader n => decimal n
    | _ => "verifica la tabla."
    end in
  (pool qr log (update_statement db tabla datos filtro) = Returned res ->
   crudTabla JSON_stringify qr tabla update (Some datos) (Some filtro) log
   = (Returned (ok_text ("Registros actualizados: " ++ count)),
      (log ++ [update_statement db tabla datos filtro])%list))
  /\
  (pool qr log (delete_statement db tabla filtro) = Returned res ->
   crudTabla JSON_stringify qr tabla delete ignored (Some filtro) log
   = (Returned (ok_text ("Registros eliminados: " ++ count)),
      (log ++ [delete_statement db tabla filtro])%list)).
Proof.
  intros Htabla Hfiltro db count. destruct filtro as [|c f]; [contradiction|].
  unfold update_statement, delete_statement.
  split; intros Hok.
  - unfold crudTabla, try_catch, bind, runQueryWithParams, send.
    rewrite (not_empty_eqb _ Htabla).
    cbn [Object_keys Object_values ret bind].
    rewrite !condiciones_assignments, !keys_length, values_count. fold db.
    rewrite Hok. reflexivity.
  - unfold crudTabla, try_catch, bind, runQueryWithParams, send.
    rewrite (not_empty_eqb _ Htabla). cbn [ret]. unfold bind.
    rewrite !condiciones_assignments, !keys_length. fold db.
    rewrite Hok. reflexivity.
Qed.

Lemma crudTabla_reports_affected_rows_witness :
  reply (crudTabla (fun _ => "[]") (mysql_on (failing_at 7)) "clientes" update
           (Some [("email", VStr "a@b.com")]) (Some [("id", VNum 5)]) [])
  = Returned (ok_text "Registros actualizados: 1")
  /\
  reply (crudTabla (fun _ => "[]") (pg_on accepting) "clientes" delete None
           (Some [("id", VNum 5)]) [])
  = Returned (ok_text "Registros eliminados: verifica la tabla.").
Proof.
  split.
  - exact (f_equal fst
             (proj1 (crudTabla_reports_affected_rows (fun _ => "[]")
                       (mysql_on (failing_at 7)) "clientes"
                       [("email", VStr "a@b.com")] [("id", VNum 5)] None []
                       {| rows := RHeader 1; fields := None |}
                       ltac:(discriminate) ltac:(discriminate))
                eq_refl)).
  - exact (f_equal fst
             (proj2 (crudTabla_reports_affected_rows (fun _ => "[]")
                       (pg_on accepting) "clientes"
                       [] [("id", VNum 5)] None []
                       {| rows := RArray []; fields := None |}
                       ltac:(discriminate) ltac:(discriminate))
                eq_refl)).
Defined.

(** ** What consultarSQL replies *)

(** X16. Once a query has passed the guard of [consultarSQL], an error
    envelope can only carry an error of the database: a refusal comes back
    as "Error al consultar: " with the driver's text, and every answer the
    database does give is rendered without error, as "Sin resultados." when
    it has no row. *)
Theorem consultarSQL_replies
  (qr : QueryRunner) (consulta : string) (log : list Statement) :
  matches_select consulta ->
  let st := {| sql := consulta; params := None |} in
  (forall e,
     pool qr log st = Thrown e ->
     consultarSQL qr consulta log
     = (Returned (error_text ("Error al consultar: " ++ describe e)),
        (log ++ [st])%list))
  /\
  (forall res,
     pool qr log st = Returned res ->
     (exists t,
        consultarSQL qr consulta log = (Returned (ok_text t), (log ++ [st])%list))
     /\ (rows res = RArray [] ->
         reply (consultarSQL qr consulta log)
         = Returned (ok_text "Sin resultados."))).
Proof.
  intros Hsel st. subst st. apply select_guard in Hsel.
  unfold consultarSQL, try_catch, runQuery, reply. rewrite Hsel. cbn [negb].
  unfold bind, send. split.
  - intros e He. now rewrite He.
  - intros res Hres. rewrite Hres.
    destruct (is_mysql (db_type qr)); cbn [ret result_rows];
      destruct (rows res) as [[|fila filas]| |]; cbn [ret fst];
      (split; [eexists; reflexivity | intros Hr; (reflexivity || discriminate Hr)]).
Qed.

Lemma consultarSQL_replies_witness :
  consultarSQL (pg_on no_such_table) "select * from fantasma" []
  = (Returned (error_text "Error al consultar: Table 'db.t' doesn't exist"),
     [ {| sql := "select * from fantasma"; params := None |} ]).
Proof.
  apply (proj1 (consultarSQL_replies (pg_on no_such_table)
                  "select * from fantasma" []
                  ltac:(apply select_guard; vm_compute; reflexivity))
           {| name := "Error"; message := "Table 'db.t' doesn't exist" |}).
  reflexivity.
Defined.

(** ** The runner and its pool *)

(** X17. The constructor accepts the three types mysql, pg and postgresql,
    spelled so, and keeps the type and the pool it was given; for any other
    type it throws, naming the type.  So a runner that is not MySQL to the
    helpers of the server is one constructed for PostgreSQL. *)
Theorem new_QueryRunner_types (type : string) (created : Driver) :
  match new_QueryRunner type created with
  | Returned qr =>
      db_type qr = type /\ pool qr = created
      /\ (if is_mysql (db_type qr) then type = "mysql"
          else type = "pg" \/ type = "postgresql")
  | Thrown e =>
      type <> "mysql" /\ type <> "pg" /\ type <> "postgresql"
      /\ message e = "Tipo de base de datos no soportado: " ++ type
  end.
Proof.
  unfold new_QueryRunner, is_mysql.
  destruct (type =? "mysql")%string eqn:Em; cbn [db_type pool].
  - rewrite Em. apply String.eqb_eq in Em. auto.
  - destruct (type =? "pg")%string eqn:Ep;
      [|destruct (type =? "postgresql")%string eqn:Eq]; cbn [orb db_type pool].
    + rewrite Em. apply String.eqb_eq in Ep. auto.
    + rewrite Em. apply String.eqb_eq in Eq. auto.
    + apply String.eqb_neq in Em, Ep, Eq. cbn [message]. auto.
Qed.

(** X18. [testConnection] hands the connection back only after a probe that
    succeeded.  When the pool lends no connection nothing else is called;
    when the probe fails on a lent connection the error is thrown and
    [release] is never called; when both succeed [release] is the third and
    last call. *)
Theorem testConnection_release
  (type : string) (net : Connections) (calls : list PoolCall) :
  let acquire := acquire_call type in
  let probe := probe_call type in
  (forall e,
     net calls acquire = Some e ->
     testConnection type net calls = (Thrown e, (calls ++ [acquire])%list))
  /\
  (forall e,
     net calls acquire = None ->
     net (calls ++ [acquire])%list probe = Some e ->
     testConnection type net calls
     = (Thrown e, (calls ++ [acquire; probe])%list))
  /\
  (net calls acquire = None ->
   net (calls ++ [acquire])%list probe = None ->
   snd (testConnection type net calls)
   = (calls ++ [acquire; probe; release])%list).
Proof.
  intros acquire probe. subst acquire probe.
  unfold testConnection, acquire_call, probe_call.
  destruct (is_mysql type); cbn [call_each]; unfold call;
    (repeat split;
     [ intros e Ha; now rewrite Ha
     | intros e Ha Hp; rewrite Ha, Hp; now rewrite <- app_assoc
     | intros Ha Hp; rewrite Ha, Hp;
       destruct (net _ release); cbn [snd]; now rewrite <- !app_assoc ]).
Qed.

Lemma testConnection_release_witness :
  testConnection "mysql" dead_probe []
  = (Thrown {| name := "Error"; message := "connect ETIMEDOUT" |},
     [getConnection; ping]).
Proof.
  exact (proj1 (proj2 (testConnection_release "mysql" dead_probe []))
           {| name := "Error"; message := "connect ETIMEDOUT" |}
           eq_refl eq_refl).
Defined.

(** ** The guard of the first version *)

Lemma all_chars_app (f : ascii -> bool) (a b : string) :
  all_chars f (a ++ b) = (all_chars f a && all_chars f b)%bool.
Proof.
  induction a as [|c a IH]; [reflexivity|]. cbn [append all_chars].
  now rewrite IH, andb_assoc.
Qed.

Lemma white_space_bytes (w : string) :
  In w white_space -> all_chars white_space_byte w = true.
Proof.
  intros H. cbv in H.
  repeat (destruct H as [<-|H]; [vm_compute; reflexivity|]). contradiction.
Qed.

Lemma white_space_run_bytes (w : string) :
  white_space_run w -> all_chars white_space_byte w = true.
Proof.
  induction 1 as [|w s Hw _ IH]; [reflexivity|].
  now rewrite all_chars_app, (white_space_bytes w Hw), IH.
Qed.

Lemma append_empty_r (s : string) : s ++ "" = s.
Proof. induction s as [|c s IH]; [reflexivity|]. simpl. now rewrite IH. Qed.

Lemma blank_bytes (s : string) :
  blank s = true -> all_chars white_space_byte s = true.
Proof.
  unfold blank, trimStart. intros H. apply String.eqb_eq in H.
  destruct (trimStart_fuel_split (String.length s) s) as (w & Hw & Hs).
  rewrite H, append_empty_r in Hs. subst w. now apply white_space_run_bytes.
Qed.

Lemma letter_not_white_space_byte (a c : ascii) :
  capital (canonicalize a) = true ->
  (canonicalize a =? canonicalize c)%char = true ->
  white_space_byte c = false.
Proof.
  intros Ha E. apply Ascii.eqb_eq in E. rewrite E in Ha. clear E a.
  destruct c as [[] [] [] [] [] [] [] []];
    (vm_compute; reflexivity) || (cbv in Ha; discriminate Ha).
Qed.

Lemma pattern_not_blank (p : string) :
  ends_with_letter p = true ->
  forall s, test_prefix_i p s = true -> blank s = false.
Proof.
  intros Hp s Ht. destruct (blank s) eqn:Hb; [|reflexivity].
  apply blank_bytes in Hb. exfalso. revert s Ht Hb.
  induction p as [|a p IH]; intros s Ht Hb; [discriminate Hp|].
  destruct s as [|c s]; [discriminate Ht|].
  cbn [test_prefix_i all_chars] in Ht, Hb.
  apply andb_prop in Ht as [Hc Ht]. apply andb_prop in Hb as [Hbc Hbs].
  destruct p as [|a' p'].
  - cbn [ends_with_letter] in Hp.
    rewrite (letter_not_white_space_byte a c Hp Hc) in Hbc. discriminate Hbc.
  - apply (IH Hp s Ht Hbs).
Qed.

Lemma trimEnd_keeps_pattern (p : string) :
  ends_with_letter p = true ->
  forall s, test_prefix_i p s = true -> test_prefix_i p (trimEnd s) = true.
Proof.
  induction p as [|a p IH]; intros Hp s Ht; [reflexivity|].
  pose proof (pattern_not_blank _ Hp s Ht) as Hb.
  destruct s as [|c s]; [discriminate Ht|].
  cbn [trimEnd]. rewrite Hb. cbn [test_prefix_i] in *.
  apply andb_prop in Ht as [Hc Ht]. rewrite Hc.
  destruct p as [|a' p']; [reflexivity|]. now apply IH.
Qed.

Lemma trimStart_fuel_pattern (w : string) :
  white_space_run w ->
  forall p rest fuel,
    starts_with_letter p = true -> test_prefix_i p rest = true ->
    String.length w <= fuel ->
    trimStart_fuel fuel (w ++ rest) = rest.
Proof.
  induction 1 as [|w s Hw Hs IH]; intros p rest fuel Hp Ht Hfuel.
  - cbn [append]. destruct fuel as [|fuel]; [reflexivity|].
    cbn [trimStart_fuel].
    destruct p as [|a p]; [discriminate Hp|].
    destruct rest as [|c rest]; [discriminate Ht|].
    cbn [starts_with_letter test_prefix_i] in Hp, Ht.
    apply andb_prop in Ht as [Hc _].
    now rewrite (letter_not_white_space a c rest Hp Hc).
  - rewrite append_length in Hfuel.
    pose proof (white_space_not_empty w Hw) as Hlen.
    destruct fuel as [|fuel]; [lia|].
    rewrite append_assoc. cbn [trimStart_fuel].
    rewrite (strip_one_white_space _ _ Hw).
    apply (IH p); auto. lia.
Qed.

Lemma prefix_guard (p s : string) :
  starts_with_letter p = true -> ends_with_letter p = true ->
  test_prefix_i p (trim s) = true <-> matches_prefix p s.
Proof.
  intros Hfirst Hlast. unfold trim, trimStart. split.
  - intros H.
    destruct (trimStart_fuel_split (String.length s) s) as (w & Hw & Hs).
    exists w, (trimStart_fuel (String.length s) s). repeat split; auto.
    destruct (trimEnd_is_prefix (trimStart_fuel (String.length s) s)) as [x Hx].
    rewrite Hx. now apply test_prefix_i_app.
  - intros (w & rest & -> & Hw & Ht).
    rewrite (trimStart_fuel_pattern w Hw p rest); auto.
    + now apply trimEnd_keeps_pattern.
    + rewrite append_length. lia.
Qed.

(** X19. The [crearTabla] of the first version accepts a text exactly when,
    after leading white space, it begins with the words "create table" in
    either case and with a single space between them.  An accepted text is
    sent to the database whole and unchanged, whatever follows the two
    words; any other text is answered with the error and nothing is sent. *)
Theorem crearTabla_inicial_guard
  (qr : QueryRunner) (definicion : string) (log : list Statement) :
  (~ matches_prefix "create table" definicion ->
   Inicial.crearTabla qr definicion log
   = (Returned (error_text "Solo se permiten sentencias CREATE TABLE."), log))
  /\
  (matches_prefix "create table" definicion ->
   sent (Inicial.crearTabla qr definicion log)
   = (log ++ [ {| sql := definicion; params := None |} ])%list).
Proof.
  unfold Inicial.crearTabla.
  destruct (test_prefix_i "create table" (trim definicion)) eqn:E.
  - split.
    + intros H. exfalso. apply H. now apply prefix_guard.
    + intros _. cbn [negb]. apply run_then_report.
  - split.
    + intros _. reflexivity.
    + intros H. apply prefix_guard in H; [congruence | reflexivity | reflexivity].
Qed.

Lemma crearTabla_inicial_guard_witness :
  Inicial.crearTabla (mysql_on accepting) "CREATE  TABLE t (id INT)" []
  = (Returned (error_text "Solo se permiten sentencias CREATE TABLE."), [])
  /\
  sent (Inicial.crearTabla (mysql_on accepting)
          " Create Table t (id INT); DROP TABLE clientes" [])
  = [ {| sql := " Create Table t (id INT); DROP TABLE clientes";
         params := None |} ].
Proof.
  split.
  - apply (proj1 (crearTabla_inicial_guard (mysql_on accepting)
                    "CREATE  TABLE t (id INT)" [])).
    intros H. apply prefix_guard in H; [|reflexivity|reflexivity].
    vm_compute in H. discriminate H.
  - apply (proj2 (crearTabla_inicial_guard (mysql_on accepting)
                    " Create Table t (id INT); DROP TABLE clientes" [])).
    apply prefix_guard; [reflexivity|reflexivity|]. vm_compute. reflexivity.
Defined.
